(** * localstack: lifecycle of the LocalStack container

    A shallow embedding of [localstack.go].  The controller [Stack] is a
    record, the Docker client is an oracle that answers from the history of
    calls made so far, and every method is a function of a small
    state-and-outcome monad that threads the controller and the history. *)

From Stdlib Require Import Ascii String ZArith Lia.
From stdpp Require Import base gmap strings list pretty.

Local Open Scope Z_scope.

(** ** Constants *)

Definition Port : string := "4566".
Definition FixedPort : string := Port +:+ "/tcp".
Definition LocalStackImage : string := "localstack/localstack:3.0".

(** The socket path that [getVolumeMounts] always adds. *)
Definition dockerSock : string := "/var/run/docker.sock".

(** ** Data model *)

(** [nat.PortBinding] and [nat.PortMap] (a Go map from port to bindings). *)
Record PortBinding := { HostIP : string; HostPort : string }.

Abbreviation PortMap := (gmap string (list PortBinding)).

(** [mount.Type] and [mount.Mount], with the fields the source sets.  A field
    left out of a struct literal takes its zero value ([ReadOnly] is false). *)
Inductive MountType :=
  TypeBind | TypeVolume | TypeTmpfs | TypeNamedPipe | TypeCluster | TypeImage.

Record Mount := {
  Type_ : MountType;
  Source : string;
  Target : string;
  ReadOnly : bool
}.

(** Go [error] values.  [ClientError] is an error coming back from the Docker
    client; the other two are built by [start] with [fmt.Errorf]. *)
Inductive error :=
| ClientError (msg : string)
| CreateError (err : error)
| InitTimeout (seconds : Z).

(** The character [0x22], used by the name-collision message. *)
Definition dquote : string := String (ascii_of_nat 34) EmptyString.

Definition newline : string := String (ascii_of_nat 10) EmptyString.

(** [err.Error()]. *)
Fixpoint Error (e : error) : string :=
  match e with
  | ClientError msg => msg
  | CreateError err => "localstack: could not create container: " +:+ Error err
  | InitTimeout seconds =>
      "localstack: init timeout exceeded (" +:+ pretty seconds +:+ " seconds)"
  end.

(** [context.Context] values a [Stack] may hold: [context.TODO()], whose
    [Done()] channel is nil, or a cancellable context with its current
    state.  The nil interface is [None] in the field [ctx]. *)
Inductive Context := TODO | WithCancel (cancelled : bool).

(** A [*client.Client] handle; nil is [None] in the field [cli]. *)
Inductive Client := DockerClient.

(** The controller.  [mu] is the embedded [sync.RWMutex], of which the source
    only uses [Lock] and [Unlock]: true while it is write-locked.  [pm] is
    [None] for a nil map.  A nil [volumeMounts] is only ever ranged over and
    so behaves as the empty map. *)
Record Stack := {
  mu : bool;
  started : bool;
  reuseExisting : bool;
  containerName : string;
  ctx : option Context;
  cli : option Client;
  volumeMounts : gmap string string;
  initCompleteLogLine : string;
  containerID : string;
  initTimeout : Z;
  pm : option PortMap;
  waitForInit : bool
}.

(** Field updates. *)
Definition set_mu (b : bool) (s : Stack) : Stack :=
  {| mu := b; started := started s; reuseExisting := reuseExisting s;
     containerName := containerName s; ctx := ctx s; cli := cli s;
     volumeMounts := volumeMounts s;
     initCompleteLogLine := initCompleteLogLine s;
     containerID := containerID s; initTimeout := initTimeout s;
     pm := pm s; waitForInit := waitForInit s |}.

Definition set_started (b : bool) (s : Stack) : Stack :=
  {| mu := mu s; started := b; reuseExisting := reuseExisting s;
     containerName := containerName s; ctx := ctx s; cli := cli s;
     volumeMounts := volumeMounts s;
     initCompleteLogLine := initCompleteLogLine s;
     containerID := containerID s; initTimeout := initTimeout s;
     pm := pm s; waitForInit := waitForInit s |}.

Definition set_reuseExisting (b : bool) (s : Stack) : Stack :=
  {| mu := mu s; started := started s; reuseExisting := b;
     containerName := containerName s; ctx := ctx s; cli := cli s;
     volumeMounts := volumeMounts s;
     initCompleteLogLine := initCompleteLogLine s;
     containerID := containerID s; initTimeout := initTimeout s;
     pm := pm s; waitForInit := waitForInit s |}.

Definition set_containerName (n : string) (s : Stack) : Stack :=
  {| mu := mu s; started := started s; reuseExisting := reuseExisting s;
     containerName := n; ctx := ctx s; cli := cli s;
     volumeMounts := volumeMounts s;
     initCompleteLogLine := initCompleteLogLine s;
     containerID := containerID s; initTimeout := initTimeout s;
     pm := pm s; waitForInit := waitForInit s |}.

Definition set_cli (c : option Client) (s : Stack) : Stack :=
  {| mu := mu s; started := started s; reuseExisting := reuseExisting s;
     containerName := containerName s; ctx := ctx s; cli := c;
     volumeMounts := volumeMounts s;
     initCompleteLogLine := initCompleteLogLine s;
     containerID := containerID s; initTimeout := initTimeout s;
     pm := pm s; waitForInit := waitForInit s |}.

Definition set_ctx (c : option Context) (s : Stack) : Stack :=
  {| mu := mu s; started := started s; reuseExisting := reuseExisting s;
     containerName := containerName s; ctx := c; cli := cli s;
     volumeMounts := volumeMounts s;
     initCompleteLogLine := initCompleteLogLine s;
     containerID := containerID s; initTimeout := initTimeout s;
     pm := pm s; waitForInit := waitForInit s |}.

Definition set_volumeMounts (m : gmap string string) (s : Stack) : Stack :=
  {| mu := mu s; started := started s; reuseExisting := reuseExisting s;
     containerName := containerName s; ctx := ctx s; cli := cli s;
     volumeMounts := m;
     initCompleteLogLine := initCompleteLogLine s;
     containerID := containerID s; initTimeout := initTimeout s;
     pm := pm s; waitForInit := waitForInit s |}.

Definition set_initCompleteLogLine (l : string) (s : Stack) : Stack :=
  {| mu := mu s; started := started s; reuseExisting := reuseExisting s;
     containerName := containerName s; ctx := ctx s; cli := cli s;
     volumeMounts := volumeMounts s;
     initCompleteLogLine := l;
     containerID := containerID s; initTimeout := initTimeout s;
     pm := pm s; waitForInit := waitForInit s |}.

Definition set_containerID (id : string) (s : Stack) : Stack :=
  {| mu := mu s; started := started s; reuseExisting := reuseExisting s;
     containerName := containerName s; ctx := ctx s; cli := cli s;
     volumeMounts := volumeMounts s;
     initCompleteLogLine := initCompleteLogLine s;
     containerID := id; initTimeout := initTimeout s;
     pm := pm s; waitForInit := waitForInit s |}.

Definition set_initTimeout (t : Z) (s : Stack) : Stack :=
  {| mu := mu s; started := started s; reuseExisting := reuseExisting s;
     containerName := containerName s; ctx := ctx s; cli := cli s;
     volumeMounts := volumeMounts s;
     initCompleteLogLine := initCompleteLogLine s;
     containerID := containerID s; initTimeout := t;
     pm := pm s; waitForInit := waitForInit s |}.

Definition set_pm (m : option PortMap) (s : Stack) : Stack :=
  {| mu := mu s; started := started s; reuseExisting := reuseExisting s;
     containerName := containerName s; ctx := ctx s; cli := cli s;
     volumeMounts := volumeMounts s;
     initCompleteLogLine := initCompleteLogLine s;
     containerID := containerID s; initTimeout := initTimeout s;
     pm := m; waitForInit := waitForInit s |}.

Definition set_waitForInit (b : bool) (s : Stack) : Stack :=
  {| mu := mu s; started := started s; reuseExisting := reuseExisting s;
     containerName := containerName s; ctx := ctx s; cli := cli s;
     volumeMounts := volumeMounts s;
     initCompleteLogLine := initCompleteLogLine s;
     containerID := containerID s; initTimeout := initTimeout s;
     pm := pm s; waitForInit := b |}.

(** Modelled from the spec: the type [StackOption] and the functions that
    build its values are declared outside [localstack.go].  The spec lists the
    configuration surface: container name, extra read-only bind mounts,
    readiness marker, init timeout in seconds, reuse-existing flag and the
    readiness-wait switch; each option assigns one of these fields. *)
Inductive StackOption :=
| WithContainerName (name : string)
| WithVolumeMounts (mounts : gmap string string)
| WithInitCompleteLogLine (line : string)
| WithInitTimeout (seconds : Z)
| WithReuseExisting (reuse : bool)
| WithWaitForInit (wait : bool).

(** [opt(s)]. *)
Definition applyOption (opt : StackOption) (s : Stack) : Stack :=
  match opt with
  | WithContainerName name => set_containerName name s
  | WithVolumeMounts mounts => set_volumeMounts mounts s
  | WithInitCompleteLogLine line => set_initCompleteLogLine line s
  | WithInitTimeout seconds => set_initTimeout seconds s
  | WithReuseExisting reuse => set_reuseExisting reuse s
  | WithWaitForInit wait => set_waitForInit wait s
  end.

(** [for _, opt := range opts { opt(s) }]. *)
Definition applyOptions (opts : list StackOption) (s : Stack) : Stack :=
  foldl (fun s opt => applyOption opt s) s opts.

(** [New]. *)
Definition New : Stack :=
  {| mu := false; started := false; reuseExisting := false;
     containerName := ""; ctx := Some TODO; cli := None;
     volumeMounts := ∅; initCompleteLogLine := ""; containerID := "";
     initTimeout := 0; pm := Some ∅; waitForInit := true |}.

(** The zero value of each field that [New] could have left untouched. *)
Definition zeroStack : Stack :=
  {| mu := false; started := false; reuseExisting := false;
     containerName := ""; ctx := None; cli := None;
     volumeMounts := ∅; initCompleteLogLine := ""; containerID := "";
     initTimeout := 0; pm := None; waitForInit := false |}.

(** ** Pure helpers *)

(** [strings.Contains(s, substr)]. *)
Fixpoint Contains (s substr : string) : bool :=
  String.prefix substr s ||
  match s with
  | EmptyString => false
  | String _ s' => Contains s' substr
  end.

(** [time.Second] in nanoseconds, and the 64-bit wrap of [time.Duration]. *)
Definition Second : Z := 1000000000.
Definition Millisecond : Z := 1000000.

Definition wrap64 (z : Z) : Z := (z + 2 ^ 63) mod 2 ^ 64 - 2 ^ 63.

(** [time.Duration(s.initTimeout) * time.Second]. *)
Definition timeoutDuration (s : Stack) : Z := wrap64 (initTimeout s * Second).

(** [EndpointURL]; [None] is the run-time panic of [port[0]] on an empty
    slice. *)
Definition EndpointURL (s : Stack) : option string :=
  if negb (containerID s =? "")%string then
    match pm s ≫= (.!! FixedPort) with
    | Some port =>
        match port with
        | p0 :: _ => Some ("http://" +:+ HostIP p0 +:+ ":" +:+ HostPort p0)
        | [] => None
        end
    | None => Some ""
    end
  else Some "".

(** The mount [getVolumeMounts] emits for one entry of [volumeMounts]. *)
Definition volumeMount (kv : string * string) : Mount :=
  {| Type_ := TypeBind; Source := kv.2; Target := kv.1; ReadOnly := true |}.

Definition sockMount : Mount :=
  {| Type_ := TypeBind; Source := dockerSock; Target := dockerSock;
     ReadOnly := false |}.

(** [getVolumeMounts] along one iteration order [kvs] of the map: Go leaves
    the order of [range] over a map unspecified. *)
Definition getVolumeMounts_range (kvs : list (string * string)) : list Mount :=
  foldl (fun mounts kv => mounts ++ [volumeMount kv]) [] kvs ++ [sockMount].

Definition getVolumeMounts (s : Stack) : list Mount :=
  getVolumeMounts_range (map_to_list (volumeMounts s)).

(** ** The Docker client and the clock, as an environment *)

(** What the controller does to the outside world, in order.  A call event
    carries the arguments that matter. *)
Inductive Event :=
| EvLock
| EvUnlock
| EvGo
| EvPrint (line : string)
| EvNewClient
| EvImageList (reference : string)
| EvImagePull (reference : string)
| EvContainerCreate (image : string) (bindings : PortMap)
    (mounts : list Mount) (autoRemove : bool) (name : string)
| EvContainerStart (id : string)
| EvContainerStop (id : string) (timeoutSeconds : Z)
| EvContainerInspect (id : string)
| EvContainerLogs (id : string)
| EvNow
| EvSince
| EvSleep (nanoseconds : Z).

(** The environment answers each call from the whole history up to and
    including that call, so an answer may depend on every earlier call and on
    the arguments.  [ImagePull] answers with the outcome of draining the
    stream, [ContainerLogs] with the outcome of [io.ReadAll], [Since] with
    the elapsed [time.Duration] in nanoseconds. *)
Record Runtime := {
  NewClientWithOpts : list Event -> error + Client;
  ImageList : list Event -> error + list (list string);
  ImagePull : list Event -> error + option error;
  ContainerCreate : list Event -> error + string;
  ContainerStart : list Event -> option error;
  ContainerStop : list Event -> option error;
  ContainerInspect : list Event -> error + PortMap;
  ContainerLogs : list Event -> error + (error + string);
  Since : list Event -> Z
}.

(** ** The monad *)

Record State := { stk : Stack; hist : list Event }.

(** How a call ends: it returns, it panics, it blocks for ever (a lock that
    is never released, a channel that never fires), or it is still polling
    when the fuel of the readiness loop runs out. *)
Inductive Outcome (A : Type) :=
| Done (a : A) (st : State)
| Panicked (msg : string) (st : State)
| Blocked (st : State)
| Running (st : State).

Arguments Done {A} a st.
Arguments Panicked {A} msg st.
Arguments Blocked {A} st.
Arguments Running {A} st.

Definition M (A : Type) : Type := State -> Outcome A.

Definition ret {A} (a : A) : M A := fun st => Done a st.

Definition bind {A B} (m : M A) (k : A -> M B) : M B :=
  fun st =>
    match m st with
    | Done a st' => k a st'
    | Panicked msg st' => Panicked msg st'
    | Blocked st' => Blocked st'
    | Running st' => Running st'
    end.

Notation "x <~ m ;; k" := (bind m (fun x => k))
  (at level 100, m at next level, right associativity).
Notation "m ;;; k" := (bind m (fun _ => k))
  (at level 100, right associativity).

Definition get : M Stack := fun st => Done (stk st) st.

Definition modify (f : Stack -> Stack) : M unit :=
  fun st => Done tt {| stk := f (stk st); hist := hist st |}.

Definition emit (ev : Event) : M unit :=
  fun st => Done tt {| stk := stk st; hist := hist st ++ [ev] |}.

Definition history : M (list Event) := fun st => Done (hist st) st.

Definition panic {A} (msg : string) : M A := fun st => Panicked msg st.

Definition block {A} : M A := fun st => Blocked st.

Definition running {A} : M A := fun st => Running st.

(** [defer d] around [body]: [d] runs when [body] returns and when it
    panics, and not when it never comes back. *)
Definition defer {A} (d : M unit) (body : M A) : M A :=
  fun st =>
    match body st with
    | Done a st' => (d ;;; ret a) st'
    | Panicked msg st' => (d ;;; panic msg) st'
    | Blocked st' => Blocked st'
    | Running st' => Running st'
    end.

(** [s.Lock()]: a held lock is never released by the goroutine that blocks
    on it. *)
Definition Lock : M unit :=
  s <~ get ;;
  if mu s then block else modify (set_mu true) ;;; emit EvLock.

(** [s.Unlock()]. *)
Definition Unlock : M unit :=
  s <~ get ;;
  if mu s then modify (set_mu false) ;;; emit EvUnlock
  else panic "sync: Unlock of unlocked RWMutex".

(** [s.pm[key] = bindings], which panics on a nil map. *)
Definition assignPM (key : string) (bindings : list PortBinding) : M unit :=
  s <~ get ;;
  match pm s with
  | Some m => modify (set_pm (Some (<[key := bindings]> m)))
  | None => panic "assignment to entry in nil map"
  end.

Section WithRuntime.

Variable rt : Runtime.

(** A method call on [s.cli]: a nil client panics, otherwise the call is
    recorded and the environment answers. *)
Definition call {A} (ev : Event) (answer : Runtime -> list Event -> A) : M A :=
  s <~ get ;;
  match cli s with
  | None => panic "invalid memory address or nil pointer dereference"
  | Some _ => emit ev ;;; h <~ history ;; ret (answer rt h)
  end.

(** ** The methods *)

(** [stop]. *)
Definition stop : M (option error) :=
  s <~ get ;;
  if negb (started s) || (containerID s =? "")%string then ret None
  else
    err <~ call (EvContainerStop (containerID s) 10) ContainerStop ;;
    match err with
    | Some e => ret (Some e)
    | None =>
        modify (set_containerID "") ;;;
        modify (set_started false) ;;;
        ret None
    end.

(** [Stop]. *)
Definition Stop : M (option error) :=
  Lock ;;; defer Unlock stop.

(** The goroutine that [start] spawns.  It waits on [s.ctx.Done()]: the
    channel of [context.TODO()] is nil and a receive on it never returns. *)
Definition watcher : M unit :=
  s <~ get ;;
  match ctx s with
  | None => panic "invalid memory address or nil pointer dereference"
  | Some TODO => block
  | Some (WithCancel false) => block
  | Some (WithCancel true) =>
      s <~ get ;;
      emit (EvPrint ("Stopping Container: " +:+ containerID s +:+ newline)) ;;;
      err <~ stop ;;
      match err with
      | Some e => panic (Error e)
      | None => ret tt
      end
  end.

(** [ensureImage]. *)
Definition ensureImage (imageName : string) : M (option error) :=
  images <~ call (EvImageList imageName) ImageList ;;
  match images with
  | inl err => ret (Some err)
  | inr images =>
      if existsb (fun repoTags => existsb (String.eqb imageName) repoTags) images
      then ret None
      else
        resp <~ call (EvImagePull imageName) ImagePull ;;
        match resp with
        | inl err => ret (Some err)
        | inr drained => ret drained
        end
  end.

(** [initComplete]. *)
Definition initComplete : M bool :=
  s <~ get ;;
  reader <~ call (EvContainerLogs (containerID s)) ContainerLogs ;;
  match reader with
  | inl _ => ret false
  | inr (inl _) => ret false
  | inr (inr logContent) =>
      let logLineCheck :=
        if (initCompleteLogLine s =? "")%string then "Ready."%string
        else initCompleteLogLine s in
      ret (Contains logContent logLineCheck)
  end.

(** The guard of the readiness loop; [time.Since] is only read when
    [s.initTimeout > 0]. *)
Definition timedOut : M bool :=
  s <~ get ;;
  if 0 <? initTimeout s then
    emit EvSince ;;;
    h <~ history ;;
    ret (timeoutDuration s <? Since rt h)
  else ret false.

(** The [for] loop of [start]: [None] is [break]. *)
Fixpoint waitLoop (fuel : nat) : M (option error) :=
  match fuel with
  | O => running
  | S fuel' =>
      expired <~ timedOut ;;
      if expired : bool then
        s <~ get ;; ret (Some (InitTimeout (initTimeout s)))
      else
        ready <~ initComplete ;;
        if ready : bool then ret None
        else emit (EvSleep (500 * Millisecond)) ;;; waitLoop fuel'
  end.

(** The name-collision message [start] looks for in a create error. *)
Definition nameInUse (name : string) : string :=
  "The container name " +:+ dquote +:+ name +:+ dquote +:+
  " is already in use by container".

(** [start], from the inspection on. *)
Definition resolvePort : M (option error) :=
  s <~ get ;;
  cont <~ call (EvContainerInspect (containerID s)) ContainerInspect ;;
  match cont with
  | inl err => ret (Some err)
  | inr ports =>
      match ports !! FixedPort with
      | Some (b0 :: _) =>
          assignPM FixedPort [{| HostIP := "localhost"; HostPort := HostPort b0 |}] ;;;
          modify (set_started true) ;;;
          ret None
      | _ => panic "index out of range [0] with length 0"
      end
  end.

(** [start]. *)
Definition start (fuel : nat) : M (option error) :=
  emit EvGo ;;;
  assignPM FixedPort [{| HostIP := "0.0.0.0"; HostPort := "" |}] ;;;
  err <~ ensureImage LocalStackImage ;;
  match err with
  | Some e => ret (Some e)
  | None =>
      s <~ get ;;
      resp <~ call (EvContainerCreate LocalStackImage (default ∅ (pm s))
                      (getVolumeMounts s) true (containerName s))
                   ContainerCreate ;;
      match resp with
      | inl err =>
          if reuseExisting s && Contains (Error err) (nameInUse (containerName s))
          then ret None
          else ret (Some (CreateError err))
      | inr id =>
          modify (set_containerID id) ;;;
          s <~ get ;;
          err <~ call (EvContainerStart (containerID s)) ContainerStart ;;
          match err with
          | Some e => ret (Some e)
          | None =>
              emit EvNow ;;;
              s <~ get ;;
              waited <~ (if waitForInit s then waitLoop fuel else ret None) ;;
              match waited with
              | Some e => ret (Some e)
              | None => resolvePort
              end
          end
      end
  end.

(** [Start], after the check of [s.started]. *)
Definition configureAndStart (fuel : nat) (opts : list StackOption)
  : M (option error) :=
  modify (applyOptions opts) ;;;
  emit EvNewClient ;;;
  h <~ history ;;
  match NewClientWithOpts rt h with
  | inl err => ret (Some err)
  | inr c => modify (set_cli (Some c)) ;;; start fuel
  end.

(** [Start]. *)
Definition Start (fuel : nat) (forceRestart : bool) (opts : list StackOption)
  : M (option error) :=
  Lock ;;;
  defer Unlock
    (s <~ get ;;
     if started s then
       if negb forceRestart then ret None
       else
         err <~ Stop ;;
         match err with
         | Some e => ret (Some e)
         | None => configureAndStart fuel opts
         end
     else configureAndStart fuel opts).

End WithRuntime.

(** ** Sample environments *)

(** A daemon on which everything succeeds: the image is present, the
    container gets the identifier [c0ffee], its log holds the default marker
    and port 4566 is published on host port 32768. *)
Definition healthy : Runtime :=
  {| NewClientWithOpts := fun _ => inr DockerClient;
     ImageList := fun _ => inr [[LocalStackImage]];
     ImagePull := fun _ => inr None;
     ContainerCreate := fun _ => inr "c0ffee"%string;
     ContainerStart := fun _ => None;
     ContainerStop := fun _ => None;
     ContainerInspect := fun _ =>
       inr {[ FixedPort := [{| HostIP := "0.0.0.0"; HostPort := "32768" |}] ]};
     ContainerLogs := fun _ => inr (inr "LocalStack version 3.0 Ready."%string);
     Since := fun h => 500 * Millisecond * Z.of_nat (length h) |}.

Definition initial : State := {| stk := New; hist := [] |}.

(** The state in which a call ends or is stuck. *)
Definition result_state {A} (o : Outcome A) : State :=
  match o with
  | Done _ st | Panicked _ st | Blocked st | Running st => st
  end.

(** Caller-visible operations and the states a run of them passes through.
    A caller can go on after a return and after a recovered panic. *)
Inductive Op :=
| OpStart (fuel : nat) (forceRestart : bool) (opts : list StackOption)
| OpStop.

Definition run_op (rt : Runtime) (op : Op) : M (option error) :=
  match op with
  | OpStart fuel forceRestart opts => Start rt fuel forceRestart opts
  | OpStop => Stop rt
  end.

Inductive reachable (rt : Runtime) : State -> Prop :=
| reach_New : reachable rt initial
| reach_return op st r st' :
    reachable rt st -> run_op rt op st = Done r st' -> reachable rt st'
| reach_panic op st msg st' :
    reachable rt st -> run_op rt op st = Panicked msg st' -> reachable rt st'.

(** The daemon never hands out an empty container identifier. *)
Definition nonempty_ids (rt : Runtime) : Prop :=
  forall h id, ContainerCreate rt h = inr id -> id <> ""%string.

(** Events of the readiness loop. *)
Definition isPollEvent (ev : Event) : bool :=
  match ev with
  | EvSince | EvContainerLogs _ | EvSleep _ => true
  | _ => false
  end.

(** ** Vocabulary of the statements *)

(** The binding [start] asks for, and the one it records after inspection. *)
Definition requested : list PortBinding :=
  [{| HostIP := "0.0.0.0"; HostPort := "" |}].

Definition resolved (hostPort : string) : list PortBinding :=
  [{| HostIP := "localhost"; HostPort := hostPort |}].

(** The binding the port map holds for the fixed port, if any. *)
Definition fixedBinding (s : Stack) : option (list PortBinding) :=
  pm s ≫= (.!! FixedPort).

(** A complete run of the start sequence from [st] to [st']: the calls made,
    in order, the answers that mattered and the fields written. *)
Definition StartSucceeded (rt : Runtime) (opts : list StackOption)
    (st st' : State) : Prop :=
  exists (m : PortMap) c id hpull hw ports b rest,
    let s0 := applyOptions opts (stk st) in
    let m0 := <[FixedPort := requested]> m in
    let hc :=
      hist st ++ [EvLock; EvNewClient; EvGo; EvImageList LocalStackImage] ++
      hpull ++
      [EvContainerCreate LocalStackImage m0 (getVolumeMounts s0) true
         (containerName s0)] in
    let hi := hc ++ [EvContainerStart id; EvNow] ++ hw ++ [EvContainerInspect id] in
    pm (stk st) = Some m /\
    (hpull = [] \/ hpull = [EvImagePull LocalStackImage]) /\
    Forall (fun ev => isPollEvent ev = true) hw /\
    (waitForInit s0 = false -> hw = []) /\
    ContainerCreate rt hc = inr id /\
    ContainerInspect rt hi = inr ports /\
    ports !! FixedPort = Some (b :: rest) /\
    hist st' = hi ++ [EvUnlock] /\
    mu (stk st') = false /\
    started (stk st') = true /\
    cli (stk st') = Some c /\
    containerID (stk st') = id /\
    pm (stk st') = Some (<[FixedPort := resolved (HostPort b)]> m0).

(** A start that did not complete: [started] stays false; either nothing was
    written, or the port map holds the requested binding and [containerID]
    is the old one or an identifier the daemon has just returned. *)
Definition StartIncomplete (rt : Runtime) (st st' : State) : Prop :=
  started (stk st') = false /\
  ((pm (stk st') = pm (stk st) /\ containerID (stk st') = containerID (stk st))
   \/
   (exists m : PortMap,
       pm (stk st) = Some m /\
       pm (stk st') = Some (<[FixedPort := requested]> m) /\
       (containerID (stk st') = containerID (stk st) \/
        exists h, ContainerCreate rt h = inr (containerID (stk st'))))).

(** The invariant of the spec: a started controller owns a container and its
    port map holds, for the fixed port, the single binding to [localhost] and
    to the host port that an earlier inspection of that container reported. *)
Definition StartedInv (rt : Runtime) (st : State) : Prop :=
  started (stk st) = true ->
  containerID (stk st) <> ""%string /\
  exists h hx ports b rest,
    hist st = h ++ hx /\
    last h = Some (EvContainerInspect (containerID (stk st))) /\
    ContainerInspect rt h = inr ports /\
    ports !! FixedPort = Some (b :: rest) /\
    fixedBinding (stk st) = Some (resolved (HostPort b)).

(** A controller that is not started but holds an identifier is between
    creation and port resolution: its port map still holds the request. *)
Definition IdleInv (st : State) : Prop :=
  started (stk st) = false ->
  containerID (stk st) <> ""%string ->
  fixedBinding (stk st) = Some requested.

Definition isImageList (ev : Event) : bool :=
  match ev with EvImageList _ => true | _ => false end.

Definition isCreate (ev : Event) : bool :=
  match ev with EvContainerCreate _ _ _ _ _ => true | _ => false end.

Definition isStart (ev : Event) : bool :=
  match ev with EvContainerStart _ => true | _ => false end.

(** How many events of a history satisfy [p]. *)
Definition calls (p : Event -> bool) (h : list Event) : nat :=
  length (List.filter p h).

(** States a caller can observe: those between calls, and the state in which
    a call from such a state ends, panics, blocks or is still polling. *)
Definition observable (rt : Runtime) (st : State) : Prop :=
  reachable rt st \/
  exists st0 op, reachable rt st0 /\ st = result_state (run_op rt op st0).

(** A daemon whose [ContainerStart] fails. *)
Definition startFails : Runtime :=
  {| NewClientWithOpts := NewClientWithOpts healthy;
     ImageList := ImageList healthy;
     ImagePull := ImagePull healthy;
     ContainerCreate := ContainerCreate healthy;
     ContainerStart := fun _ => Some (ClientError "driver failed programming external connectivity");
     ContainerStop := ContainerStop healthy;
     ContainerInspect := ContainerInspect healthy;
     ContainerLogs := ContainerLogs healthy;
     Since := Since healthy |}.


(** The marker [initComplete] looks for. *)
Definition marker (s : Stack) : string :=
  if (initCompleteLogLine s =? "")%string then "Ready."%string
  else initCompleteLogLine s.

(** What one iteration of the loop observes when it begins with history [h]:
    the clock, read only under a positive timeout, and then the log. *)
Definition sinceCheck (s : Stack) : list Event :=
  if 0 <? initTimeout s then [EvSince] else [].

Definition expiredAt (rt : Runtime) (s : Stack) (h : list Event) : bool :=
  (0 <? initTimeout s) && (timeoutDuration s <? Since rt (h ++ [EvSince])).

Definition pollAt (s : Stack) (h : list Event) : list Event :=
  h ++ sinceCheck s ++ [EvContainerLogs (containerID s)].

Definition readyAnswer (s : Stack) (r : error + (error + string)) : bool :=
  match r with
  | inr (inr logContent) => Contains logContent (marker s)
  | _ => false
  end.

Definition readyAt (rt : Runtime) (s : Stack) (h : list Event) : bool :=
  readyAnswer s (ContainerLogs rt (pollAt s h)).

Definition nextIter (s : Stack) (h : list Event) : list Event :=
  pollAt s h ++ [EvSleep (500 * Millisecond)].

(** The history with which iteration [k] begins. *)
Fixpoint iterStart (s : Stack) (h : list Event) (k : nat) : list Event :=
  match k with
  | O => h
  | S k' => iterStart s (nextIter s h) k'
  end.

(** No iteration before [k] saw the timeout expire or the marker. *)
Definition quiet (rt : Runtime) (s : Stack) (h : list Event) (k : nat) : Prop :=
  forall j, (j < k)%nat ->
    expiredAt rt s (iterStart s h j) = false /\
    readyAt rt s (iterStart s h j) = false.

(** A daemon whose container never prints the marker. *)
Definition silent : Runtime :=
  {| NewClientWithOpts := NewClientWithOpts healthy;
     ImageList := ImageList healthy;
     ImagePull := ImagePull healthy;
     ContainerCreate := ContainerCreate healthy;
     ContainerStart := ContainerStart healthy;
     ContainerStop := ContainerStop healthy;
     ContainerInspect := ContainerInspect healthy;
     ContainerLogs := fun _ => inr (inr "Waiting for all LocalStack services to be ready"%string);
     Since := Since healthy |}.

(** The controller after a first [Start(false)] on the healthy daemon. *)
Definition started_state : State :=
  result_state (Start healthy 1 false [] initial).

(** The same controller while a caller's call holds the lock and the context
    of the watcher has been cancelled. *)
Definition cancelled_state : State :=
  {| stk := set_mu true (set_ctx (Some (WithCancel true)) (stk started_state));
     hist := hist started_state ++ [EvLock] |}.

(** A controller with a client and a timeout of one second. *)
Definition impatient : Stack :=
  set_initTimeout 1 (set_cli (Some DockerClient) New).

(** ** The functional probe *)

(** [aws.Endpoint], with the fields the resolver of [createTestConfig] sets. *)
Record Endpoint := {
  PartitionID : string;
  URL : string;
  SigningRegion : string;
  HostnameImmutable : bool
}.

(** Static credentials: access key, secret and session token. *)
Record Credentials := {
  AccessKeyID : string;
  SecretAccessKey : string;
  SessionToken : string
}.

(** The [aws.Config] that [createTestConfig] asks for.  The endpoint resolver
    is a closure over the controller and reads [EndpointURL] each time a
    request resolves its endpoint, so here it takes the controller of that
    moment; [None] is the panic of [EndpointURL]. *)
Record Config := {
  Region : string;
  EndpointResolver : Stack -> option Endpoint;
  CredentialsProvider : Credentials
}.

(** What the probe does to the AWS SDK, in order. *)
Inductive SdkEvent :=
| EvLoadDefaultConfig (region : string) (credentials : Credentials)
| EvCreateQueue (endpoint : Endpoint) (queueName : string)
| EvDeleteQueue (endpoint : Endpoint) (queueUrl : string).

(** The SDK answers from the history of its calls.  [CreateQueue] answers
    with an error or with an output whose [QueueUrl] may be nil; the answer of
    [DeleteQueue] is discarded by the source and so is not modelled. *)
Record Cloud := {
  LoadDefaultConfig : list SdkEvent -> option error;
  CreateQueue : list SdkEvent -> error + option string
}.

(** [createTestConfig]. *)
Definition createTestConfig (aws : Cloud) (h : list SdkEvent)
  : (error + Config) * list SdkEvent :=
  let creds :=
    {| AccessKeyID := "dummy"; SecretAccessKey := "dummy";
       SessionToken := "dummy" |} in
  let h' := h ++ [EvLoadDefaultConfig "us-east-1" creds] in
  match LoadDefaultConfig aws h' with
  | Some err => (inl err, h')
  | None =>
      (inr {| Region := "us-east-1";
              EndpointResolver := fun s =>
                url ← EndpointURL s;
                Some {| PartitionID := "aws"; URL := url;
                        SigningRegion := "us-east-1";
                        HostnameImmutable := true |};
              CredentialsProvider := creds |},
       h')
  end.

(** [isFunctional]: the result, [None] when the resolver panics, and the
    history of SDK calls. *)
Definition isFunctional (aws : Cloud) (s : Stack) (h : list SdkEvent)
  : option bool * list SdkEvent :=
  if negb (started s) then (Some false, h)
  else
    match createTestConfig aws h with
    | (inl _, h1) => (Some false, h1)
    | (inr cfg, h1) =>
        match EndpointResolver cfg s with
        | None => (None, h1)
        | Some endpoint =>
            let h2 := h1 ++ [EvCreateQueue endpoint "test-queue"] in
            match CreateQueue aws h2 with
            | inl _ => (Some false, h2)
            | inr None => (Some false, h2)
            | inr (Some queueUrl) =>
                (Some true, h2 ++ [EvDeleteQueue endpoint queueUrl])
            end
        end
    end.

(** Every request of the event goes to [endpoint]. *)
Definition sentTo (endpoint : Endpoint) (ev : SdkEvent) : Prop :=
  match ev with
  | EvLoadDefaultConfig _ _ => True
  | EvCreateQueue e _ | EvDeleteQueue e _ => e = endpoint
  end.

(** An SDK on which the configuration loads and the queue is created. *)
Definition sqsUp : Cloud :=
  {| LoadDefaultConfig := fun _ => None;
     CreateQueue := fun _ =>
       inr (Some "http://localhost:32768/000000000000/test-queue"%string) |}.

(** ** More vocabulary *)

Definition isStop (ev : Event) : bool :=
  match ev with EvContainerStop _ _ => true | _ => false end.


Definition isLogs (ev : Event) : bool :=
  match ev with EvContainerLogs _ => true | _ => false end.

(** Some image of the list carries exactly the tag [imageName]. *)
Definition tagged (imageName : string) (images : list (list string)) : Prop :=
  exists repoTags, In repoTags images /\ In imageName repoTags.

(** What holds between calls of a controller built by [New]: the lock is
    free, the context is the one [New] installed, the port map is not nil, a
    started controller has a client, and a binding of the fixed port is never
    an empty list. *)
Definition WellFormed (st : State) : Prop :=
  mu (stk st) = false /\
  ctx (stk st) = Some TODO /\
  pm (stk st) <> None /\
  (started (stk st) = true -> cli (stk st) <> None) /\
  (forall bs, fixedBinding (stk st) = Some bs -> bs <> []).

(** The controller after [Start] and then [Stop] on the healthy daemon. *)
Definition stopped_state : State :=
  result_state (Stop healthy started_state).

(** A zero-value controller but for the context: its port map is nil. *)
Definition nilMap : State :=
  {| stk := set_pm None New; hist := [] |}.

(** An idle controller whose context has been cancelled. *)
Definition cancelled_idle : State :=
  {| stk := set_ctx (Some (WithCancel true)) New; hist := [] |}.


(** The healthy daemon asked to start with a timeout of 9223372037 seconds. *)
Definition overflow_run : State :=
  result_state (Start healthy 5 false [WithInitTimeout 9223372037] initial).

(** A controller with a client and a timeout that overflows. *)
Definition overflowing : Stack :=
  set_initTimeout 9223372037 (set_cli (Some DockerClient) New).

(** Daemons for the edge cases. *)
Definition clientFails : Runtime :=
  {| NewClientWithOpts := fun _ =>
       inl (ClientError "unable to parse docker host");
     ImageList := ImageList healthy;
     ImagePull := ImagePull healthy;
     ContainerCreate := ContainerCreate healthy;
     ContainerStart := ContainerStart healthy;
     ContainerStop := ContainerStop healthy;
     ContainerInspect := ContainerInspect healthy;
     ContainerLogs := ContainerLogs healthy;
     Since := Since healthy |}.

Definition listFails : Runtime :=
  {| NewClientWithOpts := NewClientWithOpts healthy;
     ImageList := fun _ =>
       inl (ClientError "Cannot connect to the Docker daemon");
     ImagePull := ImagePull healthy;
     ContainerCreate := ContainerCreate healthy;
     ContainerStart := ContainerStart healthy;
     ContainerStop := ContainerStop healthy;
     ContainerInspect := ContainerInspect healthy;
     ContainerLogs := ContainerLogs healthy;
     Since := Since healthy |}.

Definition noBindings : Runtime :=
  {| NewClientWithOpts := NewClientWithOpts healthy;
     ImageList := ImageList healthy;
     ImagePull := ImagePull healthy;
     ContainerCreate := ContainerCreate healthy;
     ContainerStart := ContainerStart healthy;
     ContainerStop := ContainerStop healthy;
     ContainerInspect := fun _ => inr ∅;
     ContainerLogs := ContainerLogs healthy;
     Since := Since healthy |}.

Definition stopFails : Runtime :=
  {| NewClientWithOpts := NewClientWithOpts healthy;
     ImageList := ImageList healthy;
     ImagePull := ImagePull healthy;
     ContainerCreate := ContainerCreate healthy;
     ContainerStart := ContainerStart healthy;
     ContainerStop := fun _ => Some (ClientError "No such container: c0ffee");
     ContainerInspect := ContainerInspect healthy;
     ContainerLogs := ContainerLogs healthy;
     Since := Since healthy |}.

(** A daemon that has to pull the image. *)
Definition mustPull : Runtime :=
  {| NewClientWithOpts := NewClientWithOpts healthy;
     ImageList := fun _ => inr [["localstack/localstack:latest"%string]];
     ImagePull := ImagePull healthy;
     ContainerCreate := ContainerCreate healthy;
     ContainerStart := ContainerStart healthy;
     ContainerStop := ContainerStop healthy;
     ContainerInspect := ContainerInspect healthy;
     ContainerLogs := ContainerLogs healthy;
     Since := Since healthy |}.

(** ** Basic facts and symbolic execution *)

Lemma set_mu_round (s : Stack) :
  mu s = false -> set_mu false (set_mu true s) = s.
Proof. destruct s; simpl; intros ->; reflexivity. Qed.

Lemma state_eta (st : State) : {| stk := stk st; hist := hist st |} = st.
Proof. destruct st; reflexivity. Qed.

Ltac munfold :=
  unfold watcher, Start, Stop, stop, configureAndStart, start, resolvePort,
    getVolumeMounts, ensureImage, initComplete, timedOut, call, assignPM, Lock, Unlock, defer,
    bind, get, modify, emit, history, ret, panic, block, running in *.

(** The readiness loop leaves the controller alone and only polls. *)
Lemma waitLoop_frame rt fuel st :
  exists hw,
    Forall (fun ev => isPollEvent ev = true) hw /\
    result_state (waitLoop rt fuel st) = {| stk := stk st; hist := hist st ++ hw |}.
Proof.
  revert st. induction fuel as [|fuel IH]; intros st.
  - exists []. simpl. rewrite app_nil_r, state_eta. split; [constructor | reflexivity].
  - cbn [waitLoop]. munfold.
    destruct (0 <? initTimeout (stk st)) eqn:Et; cbn [stk hist].
    + destruct (timeoutDuration (stk st) <? _) eqn:Ed; cbn [stk hist result_state].
      * exists [EvSince]. split; [repeat constructor | reflexivity].
      * destruct (cli (stk st)) eqn:Ec; cbn [stk hist result_state].
        2:{ exists [EvSince]. split; [repeat constructor | reflexivity]. }
        rewrite <- !app_assoc. cbn [app].
        match goal with
        | |- context [ContainerLogs rt ?h] => destruct (ContainerLogs rt h) as [e|[e|logs]]
        end; cbn [stk hist result_state].
        all: try (match goal with
                  | |- context [Contains ?a ?b] => destruct (Contains a b)
                  end; cbn [stk hist result_state]).
        all: try (eexists; split; [| reflexivity]; repeat constructor; fail).
        all: match goal with
             | |- context [waitLoop _ _ ?s] =>
                 destruct (IH s) as (hw & Hhw & ->); cbn [stk hist];
                 rewrite <- !app_assoc; cbn [app];
                 eexists; split; [| reflexivity]; repeat constructor; exact Hhw
             end.
    + destruct (cli (stk st)) eqn:Ec; cbn [stk hist result_state].
      2:{ exists []. rewrite app_nil_r, state_eta. split; [constructor | reflexivity]. }
      match goal with
      | |- context [ContainerLogs rt ?h] => destruct (ContainerLogs rt h) as [e|[e|logs]]
      end; cbn [stk hist result_state].
      all: try (match goal with
                | |- context [Contains ?a ?b] => destruct (Contains a b)
                end; cbn [stk hist result_state]).
      all: try (eexists; split; [| reflexivity]; repeat constructor; fail).
      all: match goal with
           | |- context [waitLoop _ _ ?s] =>
               destruct (IH s) as (hw & Hhw & ->); cbn [stk hist];
               rewrite <- !app_assoc; cbn [app];
               eexists; split; [| reflexivity]; repeat constructor; exact Hhw
           end.
Qed.

(** ** Stop *)

(** C5.  [Stop] on a free lock.  When the controller is not started or owns
    no container, it returns nil, calls nothing and changes nothing.  When a
    container is owned, it issues exactly one [ContainerStop] with a timeout
    of 10 seconds; on success [containerID] is cleared and [started] is
    reset, on failure the error is returned and the controller is as it
    was. *)
Theorem Stop_contract rt st :
  mu (stk st) = false ->
  ((started (stk st) = false \/ containerID (stk st) = ""%string) ->
   Stop rt st =
     Done None {| stk := stk st; hist := hist st ++ [EvLock; EvUnlock] |})
  /\
  (started (stk st) = true -> containerID (stk st) <> ""%string ->
   cli (stk st) <> None ->
   let h := hist st ++ [EvLock; EvContainerStop (containerID (stk st)) 10] in
   match ContainerStop rt h with
   | None =>
       Stop rt st =
         Done None
           {| stk := set_started false (set_containerID "" (stk st));
              hist := h ++ [EvUnlock] |}
   | Some e =>
       Stop rt st = Done (Some e) {| stk := stk st; hist := h ++ [EvUnlock] |}
   end).
Proof.
  intros Hmu. destruct st as [s h0]. cbn [stk hist] in *. split.
  - intros Hidle. munfold. cbn [stk hist]. rewrite Hmu. cbn [stk hist].
    assert (negb (started s) || (containerID s =? "")%string = true) as Hc.
    { destruct Hidle as [-> | ->]; [reflexivity | apply orb_true_r]. }
    cbn [set_mu started containerID mu]. rewrite Hc. cbn [stk hist mu set_mu].
    rewrite <- app_assoc. cbn [app].
    f_equal. f_equal. apply (set_mu_round s Hmu).
  - intros Hs Hid Hcli.
    assert ((containerID s =? "")%string = false) as Hc
        by (apply String.eqb_neq; exact Hid).
    destruct (cli s) as [c|] eqn:Ec; [| congruence].
    munfold. cbn [stk hist]. rewrite Hmu.
    cbn [stk hist set_mu started containerID mu cli].
    rewrite Hs, Hc. cbn [negb orb stk hist cli set_mu]. rewrite Ec.
    cbn [stk hist]. rewrite <- !app_assoc. cbn [app].
    destruct (ContainerStop rt _) as [e|]; simpl;
      rewrite <- ?app_assoc; simpl; f_equal; f_equal;
      destruct s; simpl in *; subst; reflexivity.
Qed.

(** ** Start on a started controller *)

(** C2.  On a started controller whose lock is free, [Start(true, ...)] takes
    the lock and then blocks inside [Stop] on the lock it holds: it never
    returns, and no [ContainerStop], create or start is issued. *)
Theorem Start_forceRestart_blocks rt fuel opts st :
  started (stk st) = true ->
  mu (stk st) = false ->
  Start rt fuel true opts st =
    Blocked {| stk := set_mu true (stk st); hist := hist st ++ [EvLock] |}.
Proof.
  intros Hs Hmu. destruct st as [s h0]. cbn [stk hist] in *.
  munfold. cbn [stk hist]. rewrite Hmu. cbn [stk hist started set_mu mu].
  rewrite Hs. cbn [negb stk hist mu set_mu]. reflexivity.
Qed.

(** ** What a start from an idle controller can do *)

(** Options only touch the configuration. *)
Lemma applyOptions_frame opts s :
  mu (applyOptions opts s) = mu s /\
  started (applyOptions opts s) = started s /\
  ctx (applyOptions opts s) = ctx s /\
  cli (applyOptions opts s) = cli s /\
  containerID (applyOptions opts s) = containerID s /\
  pm (applyOptions opts s) = pm s.
Proof.
  unfold applyOptions. revert s.
  induction opts as [|opt opts IH]; intros s; [cbn; tauto|].
  cbn [foldl]. destruct (IH (applyOption opt s)) as (-> & -> & -> & -> & -> & ->).
  destruct opt; cbn; tauto.
Qed.

Lemma applyOptions_set_mu opts b s :
  applyOptions opts (set_mu b s) = set_mu b (applyOptions opts s).
Proof.
  unfold applyOptions. revert s.
  induction opts as [|opt opts IH]; intros s; [reflexivity|].
  cbn [foldl]. rewrite <- IH. f_equal. destruct opt; reflexivity.
Qed.

Ltac msimpl :=
  cbn [stk hist mu started reuseExisting containerName ctx cli volumeMounts
       initCompleteLogLine containerID initTimeout pm waitForInit
       set_mu set_started set_reuseExisting set_containerName set_cli set_ctx
       set_volumeMounts set_initCompleteLogLine set_containerID
       set_initTimeout set_pm set_waitForInit
       result_state negb andb orb default from_option id] in *.

(** Histories in right-nested form, everywhere. *)
Ltac hnorm :=
  repeat (progress (rewrite <- ?app_assoc in *; cbn [app] in *)).

(** Symbolic execution of a call inside a hypothesis [Ho : o = ...]. *)
Ltac mnorm Ho :=
  msimpl; rewrite <- ?app_assoc in Ho; cbn [app] in Ho.

Ltac mcase Ho :=
  match type of Ho with
  | context [match ?x with _ => _ end] =>
      lazymatch x with
      | context [match _ with _ => _ end] => fail
      | context [waitLoop] => fail
      | _ => let E := fresh "E" in destruct x eqn:E; mnorm Ho
      end
  end.

Ltac mwait Ho :=
  match type of Ho with
  | context [waitLoop ?rt ?fuel ?s] =>
      let hw := fresh "hw" in
      let Hhw := fresh "Hhw" in
      let Hres := fresh "Hres" in
      let ow := fresh "ow" in
      destruct (waitLoop_frame rt fuel s) as (hw & Hhw & Hres);
      destruct (waitLoop rt fuel s) as [[?e|] ?stw | ?msg ?stw | ?stw | ?stw];
      cbn [result_state] in Hres;
      match type of Hres with
      | ?v = _ => subst v
      | _ = _ => injection Hres as ? ?
      end; mnorm Ho
  end.

Ltac frame_rw Ho :=
  repeat match goal with
    | H : _ (applyOptions _ _) = _ |- _ => rewrite H in Ho
    end.

Ltac mrun Ho :=
  repeat first [ progress (frame_rw Ho; mnorm Ho) | mcase Ho | mwait Ho ].

Ltac leaf_incomplete :=
  subst; split;
  [ eexists; cbn [result_state hist]; reflexivity
  | left; unfold StartIncomplete; cbn [result_state]; msimpl;
    repeat match goal with
      | H : _ (applyOptions _ _) = _ |- _ => rewrite H
      end;
    split;
    [ assumption
    | first
        [ left; split; congruence
        | right; eexists; split; [eassumption|]; split; [reflexivity|];
          first [ left; reflexivity | right; eexists; eassumption ] ] ] ].

Ltac leaf_success hpull :=
  subst; split; [eexists; cbn [result_state hist]; reflexivity|];
  right; eexists; split; [reflexivity|];
  unfold StartSucceeded, getVolumeMounts;
  eexists; eexists; eexists; exists hpull;
  first [ match goal with Hh : Forall _ ?hw |- _ => exists hw end
        | exists [] ];
  eexists; eexists; eexists;
  msimpl; rewrite <- ?app_assoc; cbn [app];
  repeat match goal with |- _ /\ _ => split end;
  first [ eassumption
        | reflexivity
        | left; reflexivity
        | right; reflexivity
        | constructor
        | intros; congruence ].

Lemma Start_idle_cases rt fuel forceRestart opts st :
  started (stk st) = false ->
  let o := Start rt fuel forceRestart opts st in
  (exists hx, hist (result_state o) = hist st ++ hx) /\
  (StartIncomplete rt st (result_state o) \/
   (exists st', o = Done None st' /\ StartSucceeded rt opts st st')).
Proof.
  destruct st as [s h0]. intros Hs o.
  assert (Ho : o = Start rt fuel forceRestart opts {| stk := s; hist := h0 |})
    by reflexivity.
  clearbody o. munfold. mnorm Ho.
  destruct (mu s) eqn:Hmu; mnorm Ho.
  { subst o. split; [exists []; symmetry; apply app_nil_r|].
    left. split; [exact Hs | left; split; reflexivity]. }
  rewrite Hs in Ho. mnorm Ho. rewrite applyOptions_set_mu in Ho.
  pose proof (applyOptions_frame opts s)
    as (Hamu & Hast & _ & Hacli & Hacid & Hapm).
  mrun Ho.
  all: try leaf_incomplete.
  all: first [ leaf_success (@nil Event)
             | leaf_success [EvImagePull LocalStackImage] ].
Qed.

(** A no-op start: on a started controller [Start(false, ...)] only takes and
    releases the lock. *)
Lemma Start_started_noop rt fuel opts st :
  started (stk st) = true ->
  mu (stk st) = false ->
  Start rt fuel false opts st =
    Done None {| stk := stk st; hist := hist st ++ [EvLock; EvUnlock] |}.
Proof.
  intros Hs Hmu. destruct st as [s h0]. cbn [stk hist] in *.
  munfold. msimpl. rewrite Hmu. msimpl. rewrite Hs. msimpl.
  rewrite <- app_assoc. cbn [app]. rewrite (set_mu_round s Hmu). reflexivity.
Qed.

(** Whatever the lock and the flag, a start on a started controller writes
    nothing but the lock. *)
Lemma Start_started_cases rt fuel forceRestart opts st :
  started (stk st) = true ->
  let st' := result_state (Start rt fuel forceRestart opts st) in
  (exists hx, hist st' = hist st ++ hx) /\
  started (stk st') = started (stk st) /\
  containerID (stk st') = containerID (stk st) /\
  cli (stk st') = cli (stk st) /\
  pm (stk st') = pm (stk st).
Proof.
  destruct st as [s h0]. intros Hs st'.
  assert (Ho : st' = result_state
                 (Start rt fuel forceRestart opts {| stk := s; hist := h0 |}))
    by reflexivity.
  clearbody st'. munfold. mnorm Ho.
  destruct (mu s) eqn:Hmu; mnorm Ho.
  { subst st'. split; [exists []; symmetry; apply app_nil_r | tauto]. }
  rewrite Hs in Ho. destruct forceRestart; mnorm Ho.
  all: subst st'; msimpl; split; [eexists; reflexivity | tauto].
Qed.

(** [Stop] either leaves the fields alone or clears [containerID] and
    [started]. *)
Lemma Stop_cases rt st :
  let st' := result_state (Stop rt st) in
  (exists hx, hist st' = hist st ++ hx) /\
  cli (stk st') = cli (stk st) /\
  pm (stk st') = pm (stk st) /\
  ((started (stk st') = started (stk st) /\
    containerID (stk st') = containerID (stk st))
   \/
   (started (stk st') = false /\ containerID (stk st') = ""%string)).
Proof.
  destruct st as [s h0]. intros st'.
  assert (Ho : st' = result_state (Stop rt {| stk := s; hist := h0 |}))
    by reflexivity.
  clearbody st'. munfold. mnorm Ho.
  mrun Ho.
  all: subst st'; msimpl; split; [eexists; cbn [hist]; try reflexivity|];
    try tauto.
  all: symmetry; apply app_nil_r.
Qed.

(** ** Invariants *)

Lemma fixedBinding_insert (s : Stack) (m : PortMap) bs :
  pm s = Some (<[FixedPort := bs]> m) -> fixedBinding s = Some bs.
Proof.
  intros H. unfold fixedBinding. rewrite H. cbn [mbind option_bind].
  apply lookup_insert_eq.
Qed.

Lemma fixedBinding_pm (s s' : Stack) :
  pm s' = pm s -> fixedBinding s' = fixedBinding s.
Proof. unfold fixedBinding. intros ->. reflexivity. Qed.

Lemma StartSucceeded_inv rt opts st st' :
  nonempty_ids rt -> StartSucceeded rt opts st st' -> StartedInv rt st'.
Proof.
  intros Hids (m & c & id & hpull & hw & ports & b & rest & Hsucc).
  cbv zeta in Hsucc.
  destruct Hsucc as (_ & _ & _ & _ & Hcreate & Hinsp & Hport & Hhist & _ & _ & _
                     & Hid & Hpm).
  intros _. split.
  - rewrite Hid. eapply Hids, Hcreate.
  - eexists _, [EvUnlock], ports, b, rest.
    split; [exact Hhist|].
    split; [rewrite Hid, !app_assoc; apply last_snoc|].
    split; [exact Hinsp|]. split; [exact Hport|].
    eapply fixedBinding_insert, Hpm.
Qed.

Lemma step_StartedInv rt op st :
  nonempty_ids rt ->
  StartedInv rt st -> StartedInv rt (result_state (run_op rt op st)).
Proof.
  intros Hids Hinv. destruct op as [fuel force opts|]; cbn [run_op].
  - destruct (started (stk st)) eqn:Hs.
    + destruct (Start_started_cases rt fuel force opts st Hs)
        as ((hx' & Hh) & Hst & Hcid & _ & Hpm).
      intros _.
      destruct (Hinv Hs) as (Hne & h & hx & ports & b & rest & H1 & Hl & H2 & H3 & H4).
      split; [rewrite Hcid; exact Hne|].
      exists h, (hx ++ hx'), ports, b, rest.
      split; [rewrite Hh, H1, app_assoc; reflexivity|].
      split; [rewrite Hcid; exact Hl|].
      split; [exact H2|]. split; [exact H3|].
      rewrite (fixedBinding_pm _ _ Hpm). exact H4.
    + destruct (Start_idle_cases rt fuel force opts st Hs)
        as (_ & [(Hst & _) | (st' & Ho & Hsucc)]).
      * intros Habs. rewrite Hst in Habs. discriminate.
      * rewrite Ho. cbn [result_state]. eapply StartSucceeded_inv; eassumption.
  - destruct (Stop_cases rt st) as ((hx' & Hh) & _ & Hpm & [(Hst & Hcid) | (Hst & _)]).
    + intros Hs'. rewrite Hst in Hs'.
      destruct (Hinv Hs') as (Hne & h & hx & ports & b & rest & H1 & Hl & H2 & H3 & H4).
      split; [rewrite Hcid; exact Hne|].
      exists h, (hx ++ hx'), ports, b, rest.
      split; [rewrite Hh, H1, app_assoc; reflexivity|].
      split; [rewrite Hcid; exact Hl|].
      split; [exact H2|]. split; [exact H3|].
      rewrite (fixedBinding_pm _ _ Hpm). exact H4.
    + intros Habs. rewrite Hst in Habs. discriminate.
Qed.

Lemma step_IdleInv rt op st :
  IdleInv st -> IdleInv (result_state (run_op rt op st)).
Proof.
  intros Hinv. destruct op as [fuel force opts|]; cbn [run_op].
  - destruct (started (stk st)) eqn:Hs.
    + destruct (Start_started_cases rt fuel force opts st Hs)
        as (_ & Hst & _).
      intros Habs. rewrite Hst, Hs in Habs. discriminate.
    + destruct (Start_idle_cases rt fuel force opts st Hs)
        as (_ & [(Hst & Hwr) | (st' & Ho & Hsucc)]).
      * intros _ Hne.
        destruct Hwr as [(Hpm & Hcid) | (m & _ & Hpm & _)].
        -- rewrite (fixedBinding_pm _ _ Hpm). apply Hinv; [exact Hs|].
           rewrite <- Hcid. exact Hne.
        -- eapply fixedBinding_insert, Hpm.
      * rewrite Ho. cbn [result_state].
        destruct Hsucc as (m & c & id & hpull & hw & ports & b & rest & Hsucc).
        cbv zeta in Hsucc.
        destruct Hsucc as (_ & _ & _ & _ & _ & _ & _ & _ & _ & Hst & _).
        intros Habs. rewrite Hst in Habs. discriminate.
  - destruct (Stop_cases rt st) as (_ & _ & Hpm & [(Hst & Hcid) | (_ & Hcid)]).
    + intros Hs' Hne. rewrite (fixedBinding_pm _ _ Hpm).
      apply Hinv; [rewrite <- Hst; exact Hs' | rewrite <- Hcid; exact Hne].
    + intros _ Hne. rewrite Hcid in Hne. congruence.
Qed.

Lemma reachable_IdleInv rt st : reachable rt st -> IdleInv st.
Proof.
  induction 1 as [|op st r st' Hr IH Ho|op st msg st' Hr IH Ho].
  - intros _ Hne. cbn in Hne. congruence.
  - pose proof (step_IdleInv rt op st IH) as H. rewrite Ho in H. exact H.
  - pose proof (step_IdleInv rt op st IH) as H. rewrite Ho in H. exact H.
Qed.

Lemma initial_StartedInv rt : StartedInv rt initial.
Proof. intros Habs. discriminate Habs. Qed.

Lemma reachable_StartedInv rt st :
  nonempty_ids rt -> reachable rt st -> StartedInv rt st.
Proof.
  intros Hids. induction 1 as [|op st r st' Hr IH Ho|op st msg st' Hr IH Ho].
  - apply initial_StartedInv.
  - pose proof (step_StartedInv rt op st Hids IH) as H. rewrite Ho in H. exact H.
  - pose proof (step_StartedInv rt op st Hids IH) as H. rewrite Ho in H. exact H.
Qed.

(** C6.  With a daemon that never returns an empty identifier, the invariant
    holds of a new controller, every [Start] and [Stop] preserves it however
    the call ends (return, error, panic, still polling or blocked), and so it
    holds in every state reachable through calls of [Start] and [Stop]. *)
Theorem started_invariant rt :
  nonempty_ids rt ->
  StartedInv rt initial /\
  (forall op st,
      StartedInv rt st -> StartedInv rt (result_state (run_op rt op st))) /\
  (forall st, reachable rt st -> StartedInv rt st).
Proof.
  intros Hids. split; [apply initial_StartedInv|]. split.
  - intros op st. apply step_StartedInv, Hids.
  - intros st. apply reachable_StartedInv, Hids.
Qed.

(** ** Idempotent start *)

Lemma calls_app p h1 h2 : calls p (h1 ++ h2) = (calls p h1 + calls p h2)%nat.
Proof. unfold calls. rewrite List.filter_app, length_app. reflexivity. Qed.

Lemma calls_poll p hw :
  (forall ev, isPollEvent ev = true -> p ev = false) ->
  Forall (fun ev => isPollEvent ev = true) hw -> calls p hw = 0%nat.
Proof.
  intros Hp. induction 1 as [|ev hw Hev _ IH]; [reflexivity|].
  unfold calls in *. cbn [List.filter]. rewrite (Hp ev Hev). exact IH.
Qed.

(** C1.  On a started controller with a free lock, [Start(false, ...)] returns
    nil, leaves every field as it was and makes no call, whatever the options;
    it only takes and releases the lock.  So when a first [Start(false)] on an
    idle controller has brought it to the started state, having listed images,
    created and started a container once each, a second [Start(false)] adds no
    call to the history. *)
Theorem Start_idempotent rt :
  (forall fuel opts st,
      started (stk st) = true -> mu (stk st) = false ->
      Start rt fuel false opts st =
        Done None {| stk := stk st; hist := hist st ++ [EvLock; EvUnlock] |})
  /\
  (forall fuel1 fuel2 opts1 opts2 st st1,
      started (stk st) = false ->
      Start rt fuel1 false opts1 st = Done None st1 ->
      started (stk st1) = true ->
      exists h1,
        hist st1 = hist st ++ h1 /\
        calls isImageList h1 = 1%nat /\
        calls isCreate h1 = 1%nat /\
        calls isStart h1 = 1%nat /\
        Start rt fuel2 false opts2 st1 =
          Done None
            {| stk := stk st1; hist := hist st ++ h1 ++ [EvLock; EvUnlock] |}).
Proof.
  split; [intros; apply Start_started_noop; assumption|].
  intros fuel1 fuel2 opts1 opts2 st st1 Hs Ho Hs1.
  destruct (Start_idle_cases rt fuel1 false opts1 st Hs)
    as (_ & [(Hst & _) | (st' & Ho' & Hsucc)]).
  { rewrite Ho in Hst. cbn [result_state] in Hst. congruence. }
  rewrite Ho in Ho'. injection Ho' as <-.
  destruct Hsucc as (m & c & id & hpull & hw & ports & b & rest & Hsucc).
  cbv zeta in Hsucc.
  destruct Hsucc as (_ & Hpull & Hhw & _ & _ & _ & _ & Hhist & Hmu & _).
  rewrite <- !app_assoc in Hhist.
  eexists. split; [exact Hhist|].
  assert (forall p, (forall ev, isPollEvent ev = true -> p ev = false) ->
                    calls p hw = 0%nat) as Hpoll
      by (intros p Hp; apply calls_poll; assumption).
  repeat split.
  - rewrite !calls_app, Hpoll by (intros [] ?; (discriminate || reflexivity)).
    destruct Hpull as [-> | ->]; reflexivity.
  - rewrite !calls_app, Hpoll by (intros [] ?; (discriminate || reflexivity)).
    destruct Hpull as [-> | ->]; reflexivity.
  - rewrite !calls_app, Hpoll by (intros [] ?; (discriminate || reflexivity)).
    destruct Hpull as [-> | ->]; reflexivity.
  - rewrite (Start_started_noop rt fuel2 opts2 st1 Hs1 Hmu), Hhist.
    rewrite <- !app_assoc. reflexivity.
Qed.

(** ** Endpoint *)

Lemma observable_invs rt st :
  nonempty_ids rt -> observable rt st -> StartedInv rt st /\ IdleInv st.
Proof.
  intros Hids [Hr | (st0 & op & Hr & ->)].
  - split; [apply (reachable_StartedInv rt st Hids), Hr | apply (reachable_IdleInv rt), Hr].
  - split.
    + apply step_StartedInv; [exact Hids|]. apply (reachable_StartedInv rt st0 Hids), Hr.
    + apply step_IdleInv. apply (reachable_IdleInv rt), Hr.
Qed.

Lemma EndpointURL_owned s bs :
  containerID s <> ""%string -> fixedBinding s = Some bs ->
  EndpointURL s =
    match bs with
    | p0 :: _ => Some ("http://" +:+ HostIP p0 +:+ ":" +:+ HostPort p0)
    | [] => None
    end.
Proof.
  intros Hne Hb. unfold EndpointURL.
  apply String.eqb_neq in Hne. rewrite Hne. cbn [negb].
  unfold fixedBinding in Hb. rewrite Hb. reflexivity.
Qed.

(** C3, as stated, fails.  While a first start on a new controller is in its
    readiness loop, and after a start whose [ContainerStart] failed, no start
    has completed and [started] is false, yet [EndpointURL] is not empty: it
    is built from the requested binding. *)
Lemma EndpointURL_before_start_completes :
  (exists st,
      Start healthy 0 false [] initial = Running st /\
      started (stk st) = false /\
      EndpointURL (stk st) = Some "http://0.0.0.0:"%string /\
      EndpointURL (stk st) <> Some ""%string)
  /\
  (exists e st,
      Start startFails 1 false [] initial = Done (Some e) st /\
      started (stk st) = false /\
      EndpointURL (stk st) = Some "http://0.0.0.0:"%string /\
      EndpointURL (stk st) <> Some ""%string).
Proof.
  split.
  - eexists. split; [vm_compute; reflexivity|].
    split; [reflexivity|]. split; [vm_compute; reflexivity|].
    vm_compute. discriminate.
  - eexists _, _. split; [vm_compute; reflexivity|].
    split; [reflexivity|]. split; [vm_compute; reflexivity|].
    vm_compute. discriminate.
Qed.

(** C3, amended.  [EndpointURL] is empty whenever [containerID] is empty.  In
    every observable state of a controller driven by [Start] and [Stop]: when
    it is started, the URL is [http://localhost:] followed by the host port
    that an inspection of its container reported for the fixed port; when it is not started
    but holds a container identifier (a start in progress or failed after
    creation), the URL is [http://0.0.0.0:], from the requested binding. *)
Theorem EndpointURL_contract rt :
  nonempty_ids rt ->
  (forall s, containerID s = ""%string -> EndpointURL s = Some ""%string) /\
  (forall st, observable rt st ->
     (started (stk st) = true ->
      exists h hx ports b rest,
        hist st = h ++ hx /\
        last h = Some (EvContainerInspect (containerID (stk st))) /\
        ContainerInspect rt h = inr ports /\
        ports !! FixedPort = Some (b :: rest) /\
        EndpointURL (stk st) = Some ("http://localhost:" +:+ HostPort b)) /\
     (started (stk st) = false -> containerID (stk st) <> ""%string ->
      EndpointURL (stk st) = Some "http://0.0.0.0:"%string)).
Proof.
  intros Hids. split.
  - intros s Hid. unfold EndpointURL. rewrite Hid. reflexivity.
  - intros st Hobs. destruct (observable_invs rt st Hids Hobs) as [Hst Hidle].
    split.
    + intros Hs.
      destruct (Hst Hs) as (Hne & h & hx & ports & b & rest & H1 & Hl & H2 & H3 & H4).
      exists h, hx, ports, b, rest. repeat (split; [assumption|]).
      rewrite (EndpointURL_owned _ _ Hne H4). reflexivity.
    + intros Hs Hne. rewrite (EndpointURL_owned _ _ Hne (Hidle Hs Hne)).
      reflexivity.
Qed.

(** ** Creation errors *)

Lemma ensureImage_frame rt img st :
  exists hp,
    result_state (ensureImage rt img st) =
      {| stk := stk st; hist := hist st ++ hp |}.
Proof.
  destruct st as [s h0].
  set (st' := result_state _).
  assert (Ho : st' = result_state (ensureImage rt img {| stk := s; hist := h0 |}))
    by reflexivity.
  clearbody st'. munfold. mnorm Ho. mrun Ho.
  all: subst st'; cbn [result_state stk hist]; eexists; try reflexivity.
  all: rewrite app_nil_r; reflexivity.
Qed.


(** ** The readiness loop *)

Lemma prefix_append sub s :
  String.prefix sub s = true <-> exists post, s = sub +:+ post.
Proof.
  revert s. induction sub as [|a sub IH]; intros s.
  - destruct s; cbn; (split; [intros _; eexists; reflexivity | reflexivity]).
  - destruct s as [|b s]; cbn.
    + split; [discriminate | intros (post & [=])].
    + destruct (Ascii.ascii_dec a b) as [<-|Hne].
      * rewrite IH. split; intros (post & Hp); exists post.
        -- rewrite Hp. reflexivity.
        -- change (String a s = String a (sub +:+ post)) in Hp. congruence.
      * split; [discriminate|]. intros (post & Hp).
        change (String b s = String a (sub +:+ post)) in Hp. congruence.
Qed.

(** [Contains] is the substring relation. *)
Lemma Contains_substring s sub :
  Contains s sub = true <-> exists pre post, s = pre +:+ sub +:+ post.
Proof.
  induction s as [|a s IH]; cbn [Contains].
  - rewrite orb_false_r, prefix_append. split.
    + intros (post & ->). exists ""%string, post. reflexivity.
    + intros ([|b pre] & post & H); [exists post; exact H | discriminate H].
  - rewrite orb_true_iff, prefix_append, IH. split.
    + intros [(post & ->) | (pre & post & ->)].
      * exists ""%string, post. reflexivity.
      * exists (String a pre), post. reflexivity.
    + intros ([|b pre] & post & H).
      * left. exists post. exact H.
      * right. injection H as <- ->. exists pre, post. reflexivity.
Qed.

Lemma timedOut_run rt s h :
  timedOut rt {| stk := s; hist := h |} =
    Done (expiredAt rt s h) {| stk := s; hist := h ++ sinceCheck s |}.
Proof.
  unfold timedOut, expiredAt, sinceCheck. munfold. msimpl.
  destruct (0 <? initTimeout s); msimpl; [reflexivity|].
  rewrite app_nil_r. reflexivity.
Qed.

Lemma initComplete_run rt s c h :
  cli s = Some c ->
  initComplete rt {| stk := s; hist := h |} =
    Done (readyAnswer s (ContainerLogs rt (h ++ [EvContainerLogs (containerID s)])))
      {| stk := s; hist := h ++ [EvContainerLogs (containerID s)] |}.
Proof.
  intros Hc. unfold readyAnswer, marker. munfold. msimpl. rewrite Hc. msimpl.
  destruct (ContainerLogs rt _) as [e|[e|logContent]]; reflexivity.
Qed.

(** One turn of the loop. *)
Lemma waitLoop_turn rt s c fuel h :
  cli s = Some c ->
  waitLoop rt (S fuel) {| stk := s; hist := h |} =
    if expiredAt rt s h then
      Done (Some (InitTimeout (initTimeout s)))
        {| stk := s; hist := h ++ sinceCheck s |}
    else if readyAt rt s h then Done None {| stk := s; hist := pollAt s h |}
    else waitLoop rt fuel {| stk := s; hist := nextIter s h |}.
Proof.
  intros Hc. cbn [waitLoop]. unfold bind at 1. rewrite timedOut_run.
  destruct (expiredAt rt s h); [reflexivity|].
  unfold bind at 1. rewrite (initComplete_run rt s c _ Hc).
  unfold readyAt, nextIter, pollAt. rewrite <- !app_assoc.
  destruct (readyAnswer s _); [reflexivity|].
  unfold bind, emit. msimpl. rewrite <- !app_assoc. reflexivity.
Qed.

(** The loop ends at the first iteration that sees the timeout expired or
    the marker, or is still running when the fuel is spent. *)
Lemma waitLoop_outcome rt s c :
  cli s = Some c ->
  forall fuel h,
    (exists k, (k < fuel)%nat /\ quiet rt s h k /\
       expiredAt rt s (iterStart s h k) = true /\
       waitLoop rt fuel {| stk := s; hist := h |} =
         Done (Some (InitTimeout (initTimeout s)))
           {| stk := s; hist := iterStart s h k ++ [EvSince] |})
    \/
    (exists k, (k < fuel)%nat /\ quiet rt s h k /\
       expiredAt rt s (iterStart s h k) = false /\
       readyAt rt s (iterStart s h k) = true /\
       waitLoop rt fuel {| stk := s; hist := h |} =
         Done None {| stk := s; hist := pollAt s (iterStart s h k) |})
    \/
    (quiet rt s h fuel /\
     waitLoop rt fuel {| stk := s; hist := h |} =
       Running {| stk := s; hist := iterStart s h fuel |}).
Proof.
  intros Hc. induction fuel as [|fuel IH]; intros h.
  - right. right. split; [intros j Hj; lia | reflexivity].
  - rewrite (waitLoop_turn rt s c fuel h Hc).
    destruct (expiredAt rt s h) eqn:Ee.
    { left. exists 0%nat. split; [lia|]. split; [intros j Hj; lia|].
      split; [exact Ee|]. cbn [iterStart]. unfold sinceCheck.
      unfold expiredAt in Ee. apply andb_true_iff in Ee as [-> _]. reflexivity. }
    destruct (readyAt rt s h) eqn:Er.
    { right. left. exists 0%nat. split; [lia|]. split; [intros j Hj; lia|].
      cbn [iterStart]. auto. }
    assert (forall k, quiet rt s (nextIter s h) k -> quiet rt s h (S k)) as Hq.
    { intros k Hk [|j] Hj; cbn [iterStart]; [auto | apply Hk; lia]. }
    destruct (IH (nextIter s h))
      as [(k & Hk & Hquiet & He & Hw) | [(k & Hk & Hquiet & He & Hr & Hw) | (Hquiet & Hw)]].
    + left. exists (S k). cbn [iterStart]. split; [lia|]. auto.
    + right. left. exists (S k). cbn [iterStart]. split; [lia|]. auto.
    + right. right. cbn [iterStart]. auto.
Qed.

Lemma timeoutDuration_small s :
  0 <= initTimeout s <= 9223372036 ->
  timeoutDuration s = initTimeout s * 1000000000.
Proof.
  intros H. unfold timeoutDuration, wrap64, Second.
  rewrite Z.mod_small; lia.
Qed.

Lemma expiredAt_seconds rt s h :
  initTimeout s <= 9223372036 ->
  expiredAt rt s h =
    (0 <? initTimeout s) &&
    (initTimeout s * 1000000000 <? Since rt (h ++ [EvSince])).
Proof.
  intros Hle. unfold expiredAt.
  destruct (0 <? initTimeout s) eqn:Hpos; [|reflexivity].
  apply Z.ltb_lt in Hpos. rewrite timeoutDuration_small by lia. reflexivity.
Qed.

(** C4, as stated, fails above 9223372036 seconds.  With a timeout of
    9223372037 seconds on the healthy daemon, whose log holds the marker from
    the start, [Start] returns the timeout error at the first check of the
    loop: the clock read there is far below the configured timeout and no log
    has been fetched. *)
Lemma readiness_loop_overflow :
  Start healthy 5 false [WithInitTimeout 9223372037] initial =
    Done (Some (InitTimeout 9223372037)) overflow_run /\
  hist overflow_run = removelast (hist overflow_run) ++ [EvUnlock] /\
  last (removelast (hist overflow_run)) = Some EvSince /\
  0 <= Since healthy (removelast (hist overflow_run)) < 9223372037 * 1000000000 /\
  calls isLogs (hist overflow_run) = 0%nat /\
  (forall h, readyAnswer (stk overflow_run) (ContainerLogs healthy h) = true).
Proof.
  split; [vm_compute; reflexivity|].
  split; [vm_compute; reflexivity|].
  split; [vm_compute; reflexivity|].
  split; [split; [vm_compute; discriminate | vm_compute; reflexivity]|].
  split; [vm_compute; reflexivity|].
  intros h. vm_compute. reflexivity.
Qed.

(** C4, amended.  For a controller with a client and a timeout of at most
    9223372036 seconds, so that the bound in nanoseconds fits 64 bits, the
    loop run with history [h]: it ends with an error exactly when
    [initTimeout] is positive and some iteration [k] finds the elapsed time
    above [initTimeout] seconds while no earlier iteration found it so or saw
    the marker; the error is then the timeout error that carries
    [initTimeout], whose message prints that number.  A poll reads the log
    once and reports ready exactly when the answer is a readable log that
    contains the marker as a substring, the marker being [Ready.] when
    [initCompleteLogLine] is empty; a failed fetch or read makes the poll
    report not ready and is not an error of the loop. *)
Theorem readiness_loop rt s c :
  cli s = Some c ->
  initTimeout s <= 9223372036 ->
  (forall fuel h e st',
      waitLoop rt fuel {| stk := s; hist := h |} = Done (Some e) st' <->
      0 < initTimeout s /\
      exists k, (k < fuel)%nat /\ quiet rt s h k /\
        initTimeout s * 1000000000 < Since rt (iterStart s h k ++ [EvSince]) /\
        e = InitTimeout (initTimeout s) /\
        st' = {| stk := s; hist := iterStart s h k ++ [EvSince] |}) /\
  Error (InitTimeout (initTimeout s)) =
    "localstack: init timeout exceeded (" +:+ pretty (initTimeout s) +:+
    " seconds)" /\
  (forall h,
      expiredAt rt s h =
        (0 <? initTimeout s) &&
        (initTimeout s * 1000000000 <? Since rt (h ++ [EvSince]))) /\
  (forall h,
      let h' := h ++ [EvContainerLogs (containerID s)] in
      exists ready,
        initComplete rt {| stk := s; hist := h |} =
          Done ready {| stk := s; hist := h' |} /\
        (ready = true <->
         exists logContent pre post,
           ContainerLogs rt h' = inr (inr logContent) /\
           logContent = pre +:+ marker s +:+ post)) /\
  marker s =
    (if (initCompleteLogLine s =? "")%string then "Ready."%string
     else initCompleteLogLine s).
Proof.
  intros Hc Hle.
  split; [|split; [reflexivity|split; [intros h; apply expiredAt_seconds, Hle|split; [|reflexivity]]]].
  - intros fuel h e st'. split.
    + intros Hw.
      destruct (waitLoop_outcome rt s c Hc fuel h)
        as [(k & Hk & Hq & He & Hw') | [(k & Hk & Hq & He & Hr & Hw') | (Hq & Hw')]];
        rewrite Hw in Hw'; try discriminate Hw'.
      injection Hw' as -> ->.
      rewrite (expiredAt_seconds rt s _ Hle) in He.
      apply andb_true_iff in He as [Hpos Hlt].
      split; [apply Z.ltb_lt, Hpos|].
      exists k. split; [exact Hk|]. split; [exact Hq|].
      split; [apply Z.ltb_lt, Hlt|]. split; reflexivity.
    + intros (Hpos & k & Hk & Hq & Hlt & -> & ->).
      assert (expiredAt rt s (iterStart s h k) = true) as He.
      { rewrite (expiredAt_seconds rt s _ Hle). apply andb_true_iff.
        split; [apply Z.ltb_lt, Hpos | apply Z.ltb_lt, Hlt]. }
      destruct (waitLoop_outcome rt s c Hc fuel h)
        as [(k' & Hk' & Hq' & He' & Hw') | [(k' & Hk' & Hq' & He' & Hr' & Hw') | (Hq' & Hw')]].
      * destruct (Nat.lt_trichotomy k' k) as [Hlt'|[->|Hgt]].
        -- destruct (Hq k' Hlt') as [Habs _]. congruence.
        -- exact Hw'.
        -- destruct (Hq' k Hgt) as [Habs _]. congruence.
      * destruct (Nat.lt_trichotomy k' k) as [Hlt'|[->|Hgt]].
        -- destruct (Hq k' Hlt') as [_ Habs]. congruence.
        -- congruence.
        -- destruct (Hq' k Hgt) as [Habs _]. congruence.
      * destruct (Hq' k Hk) as [Habs _]. congruence.
  - intros h h'. eexists. split; [apply (initComplete_run rt s c h Hc)|].
    subst h'. destruct (ContainerLogs rt _) as [e|[e|logContent]]; cbn [readyAnswer].
    + split; [discriminate | intros (l & pre & post & [=] & _)].
    + split; [discriminate | intros (l & pre & post & [=] & _)].
    + rewrite Contains_substring. split.
      * intros (pre & post & ->). eexists _, pre, post. split; reflexivity.
      * intros (l & pre & post & [= <-] & ->). exists pre, post. reflexivity.
Qed.

(** ** Mounts *)

Lemma foldl_mounts acc kvs :
  foldl (fun mounts kv => mounts ++ [volumeMount kv]) acc kvs =
    acc ++ (volumeMount <$> kvs).
Proof.
  revert acc. induction kvs as [|kv kvs IH]; intros acc.
  - cbn. rewrite app_nil_r. reflexivity.
  - cbn [foldl fmap list_fmap]. rewrite IH, <- app_assoc. reflexivity.
Qed.

Lemma getVolumeMounts_range_eq kvs :
  getVolumeMounts_range kvs = (volumeMount <$> kvs) ++ [sockMount].
Proof. unfold getVolumeMounts_range. rewrite foldl_mounts. reflexivity. Qed.

(** C7.  For a map [m] of volume mounts ranged over in any order [kvs], the
    list built has one entry more than [m]: the read-only bind mounts of the
    entries of [m], source the host path and target the container path, in
    the order of iteration, followed by the bind mount of the Docker socket
    onto itself, which is the only entry that is not read-only.  Nothing else
    is in the list. *)
Theorem getVolumeMounts_contract (m : gmap string string) kvs :
  kvs ≡ₚ map_to_list m ->
  let mounts := getVolumeMounts_range kvs in
  length mounts = S (size m) /\
  mounts = (volumeMount <$> kvs) ++ [sockMount] /\
  (forall mt,
      mt ∈ mounts <->
      (exists containerPath hostPath,
          m !! containerPath = Some hostPath /\
          mt = {| Type_ := TypeBind; Source := hostPath;
                  Target := containerPath; ReadOnly := true |}) \/
      mt = {| Type_ := TypeBind; Source := "/var/run/docker.sock";
              Target := "/var/run/docker.sock"; ReadOnly := false |}) /\
  List.filter (fun mt => negb (ReadOnly mt)) mounts = [sockMount].
Proof.
  intros Hperm mounts. subst mounts. rewrite getVolumeMounts_range_eq.
  split; [|split; [reflexivity|split]].
  - rewrite length_app, length_fmap, Hperm, length_map_to_list. cbn. lia.
  - intros mt. rewrite elem_of_app, list_elem_of_fmap, list_elem_of_singleton.
    split.
    + intros [([k v] & -> & Hin) | ->]; [left | right; reflexivity].
      rewrite Hperm in Hin. apply elem_of_map_to_list in Hin.
      exists k, v. split; [exact Hin | reflexivity].
    + intros [(k & v & Hkv & ->) | ->]; [left | right; reflexivity].
      exists (k, v). split; [reflexivity|].
      rewrite Hperm. apply elem_of_map_to_list. exact Hkv.
  - rewrite List.filter_app. cbn [List.filter sockMount ReadOnly negb].
    replace (List.filter _ (volumeMount <$> kvs)) with (@nil Mount);
      [reflexivity|].
    clear Hperm. induction kvs as [|kv kvs IH]; [reflexivity|].
    cbn. exact IH.
Qed.

(** On the controller, [getVolumeMounts] ranges over [volumeMounts]. *)
Lemma getVolumeMounts_length s :
  length (getVolumeMounts s) = S (size (volumeMounts s)).
Proof.
  unfold getVolumeMounts.
  rewrite getVolumeMounts_range_eq, length_app, length_fmap, length_map_to_list.
  cbn. lia.
Qed.

(** ** Defaults *)

(** A start that gets past [ContainerStart] goes on with the readiness wait
    and the inspection, in the state that holds the new identifier. *)
Lemma Start_enters_wait rt fuel forceRestart opts st m c st2 id :
  mu (stk st) = false ->
  started (stk st) = false ->
  pm (stk st) = Some m ->
  NewClientWithOpts rt (hist st ++ [EvLock; EvNewClient]) = inr c ->
  let s0 := applyOptions opts (stk st) in
  let s1 :=
    set_pm (Some (<[FixedPort := requested]> m))
      (set_cli (Some c) (set_mu true s0)) in
  ensureImage rt LocalStackImage
    {| stk := s1; hist := hist st ++ [EvLock; EvNewClient; EvGo] |} =
    Done None st2 ->
  let hc :=
    hist st2 ++
    [EvContainerCreate LocalStackImage (<[FixedPort := requested]> m)
       (getVolumeMounts s0) true (containerName s0)] in
  ContainerCreate rt hc = inr id ->
  ContainerStart rt (hc ++ [EvContainerStart id]) = None ->
  Start rt fuel forceRestart opts st =
    defer Unlock
      (waited <~ (if waitForInit s0 then waitLoop rt fuel else ret None) ;;
       match waited with
       | Some e => ret (Some e)
       | None => resolvePort rt
       end)
      {| stk := set_containerID id s1;
         hist := hc ++ [EvContainerStart id; EvNow] |}.
Proof.
  intros Hmu Hs Hpm Hnew s0 s1 Hens hc Hcreate Hstart.
  destruct st as [s h0]. cbn [stk hist] in *.
  pose proof (applyOptions_frame opts s)
    as (Hamu & Hast & _ & Hacli & Hacid & Hapm).
  destruct (ensureImage_frame rt LocalStackImage
              {| stk := s1; hist := h0 ++ [EvLock; EvNewClient; EvGo] |})
    as (hp & Hfr).
  rewrite Hens in Hfr. cbn [result_state stk hist] in Hfr. subst st2.
  unfold Start, configureAndStart, start, resolvePort, getVolumeMounts, call,
    assignPM, Lock, Unlock, defer, bind, get, modify, emit, history, ret,
    panic, block.
  msimpl. rewrite Hmu. msimpl. rewrite Hs. msimpl.
  rewrite applyOptions_set_mu. rewrite <- !app_assoc. cbn [app].
  rewrite Hnew. msimpl. rewrite Hapm, Hpm. msimpl.
  rewrite <- !app_assoc. cbn [app]. fold s0. fold requested.
  change (set_pm _ (set_cli (Some c) (set_mu true s0))) with s1.
  rewrite Hens. subst s1. msimpl.
  subst hc. unfold getVolumeMounts in Hcreate, Hstart.
  cbn [hist] in Hcreate, Hstart.
  hnorm. rewrite Hcreate. msimpl.
  hnorm. rewrite Hstart. msimpl.
  hnorm. reflexivity.
Qed.

Lemma iterStart_untimed s h k :
  initTimeout s <= 0 ->
  iterStart s h k =
    h ++ concat (replicate k [EvContainerLogs (containerID s);
                              EvSleep (500 * Millisecond)]).
Proof.
  intros Ht. revert h. induction k as [|k IH]; intros h.
  - cbn. rewrite app_nil_r. reflexivity.
  - cbn [iterStart replicate concat]. rewrite IH.
    unfold nextIter, pollAt, sinceCheck.
    destruct (0 <? initTimeout s) eqn:E; [apply Z.ltb_lt in E; lia|].
    cbn [app]. rewrite <- !app_assoc. reflexivity.
Qed.

(** C10, as stated, fails on one field: [New] leaves [waitForInit] and the
    port map aside, but not every other field at its zero value, because
    [ctx] holds [context.TODO()] and not the nil interface. *)
Lemma New_ctx_not_zero :
  ctx New = Some TODO /\
  ctx zeroStack = None /\
  New <> set_pm (Some ∅) (set_waitForInit true zeroStack).
Proof.
  split; [reflexivity|]. split; [reflexivity|].
  intros H. apply (f_equal ctx) in H. discriminate H.
Qed.

(** C10, amended.  [New] sets [waitForInit], an empty non-nil port map and
    [ctx] to [context.TODO()]; every other field has its zero value.  A
    [Start] with no options on it that gets past [ContainerStart] polls the
    log for [Ready.] without reading the clock, and when the marker never
    shows it is still polling after any number of rounds, each a log fetch
    followed by a sleep of 500 ms. *)
Theorem New_defaults :
  (waitForInit New = true /\ pm New = Some ∅ /\ ctx New = Some TODO /\
   mu New = false /\ started New = false /\ reuseExisting New = false /\
   containerName New = ""%string /\ cli New = None /\ volumeMounts New = ∅ /\
   initCompleteLogLine New = ""%string /\ containerID New = ""%string /\
   initTimeout New = 0)
  /\
  (forall rt c st2 id,
      let s1 :=
        set_pm (Some (<[FixedPort := requested]> ∅))
          (set_cli (Some c) (set_mu true New)) in
      NewClientWithOpts rt [EvLock; EvNewClient] = inr c ->
      ensureImage rt LocalStackImage
        {| stk := s1; hist := [EvLock; EvNewClient; EvGo] |} = Done None st2 ->
      let hc :=
        hist st2 ++
        [EvContainerCreate LocalStackImage (<[FixedPort := requested]> ∅)
           [sockMount] true ""] in
      ContainerCreate rt hc = inr id ->
      ContainerStart rt (hc ++ [EvContainerStart id]) = None ->
      (forall h, readyAnswer New (ContainerLogs rt h) = false) ->
      forall fuel,
        Start rt fuel false [] initial =
          Running
            {| stk := set_containerID id s1;
               hist :=
                 hc ++ [EvContainerStart id; EvNow] ++
                 concat (replicate fuel [EvContainerLogs id;
                                         EvSleep (500 * Millisecond)]) |}).
Proof.
  split; [repeat split|].
  intros rt c st2 id s1 Hnew Hens hc Hcreate Hstart Hsilent fuel.
  assert (getVolumeMounts New = [sockMount]) as Hmounts.
  { unfold getVolumeMounts. cbn [volumeMounts New].
    rewrite map_to_list_empty. reflexivity. }
  rewrite (Start_enters_wait rt fuel false [] initial ∅ c st2 id
             eq_refl eq_refl eq_refl Hnew Hens).
  2:{ cbn [applyOptions foldl stk initial]. rewrite Hmounts. exact Hcreate. }
  2:{ cbn [applyOptions foldl stk initial]. rewrite Hmounts. exact Hstart. }
  cbn [applyOptions foldl stk hist initial]. rewrite Hmounts.
  cbn [containerName waitForInit New app]. fold s1. fold hc.
  set (s := set_containerID id s1).
  assert (cli s = Some c) as Hc by reflexivity.
  assert (initTimeout s <= 0) as Ht by (cbn; lia).
  destruct (waitLoop_outcome rt s c Hc fuel (hc ++ [EvContainerStart id; EvNow]))
    as [(k & _ & _ & He & _) | [(k & _ & _ & _ & Hr & _) | (_ & Hw)]].
  - unfold expiredAt in He. cbn in He. discriminate He.
  - unfold readyAt in Hr. change (readyAnswer s) with (readyAnswer New) in Hr.
    rewrite Hsilent in Hr. discriminate Hr.
  - unfold defer, bind. rewrite Hw.
    rewrite (iterStart_untimed s _ fuel Ht), <- app_assoc. reflexivity.
Qed.

(** ** The exit watcher *)

(** The body of the exit watcher does not take the lock.  Once its context
    is cancelled it runs [stop] whether or not the lock is held: on a started
    controller whose container stops, it clears [containerID] and [started]
    and its history shows the print and the [ContainerStop] call but no
    [Lock].  With the lock held by a call in flight, a caller's [Stop] blocks
    in the same state while the watcher goes through and writes both
    fields. *)
Theorem watcher_bypasses_lock rt st c :
  ctx (stk st) = Some (WithCancel true) ->
  started (stk st) = true ->
  containerID (stk st) <> ""%string ->
  cli (stk st) = Some c ->
  let h :=
    hist st ++
    [EvPrint ("Stopping Container: " +:+ containerID (stk st) +:+ newline);
     EvContainerStop (containerID (stk st)) 10] in
  ContainerStop rt h = None ->
  watcher rt st =
    Done tt
      {| stk := set_started false (set_containerID "" (stk st)); hist := h |}
  /\ (mu (stk st) = true -> Stop rt st = Blocked st).
Proof.
  intros Hctx Hs Hid Hc h Hstop. destruct st as [s h0]. cbn [stk hist] in *.
  apply String.eqb_neq in Hid. split.
  - munfold. msimpl. rewrite Hctx. msimpl. rewrite Hs, Hid. msimpl.
    rewrite Hc. msimpl. hnorm. subst h. hnorm. rewrite Hstop. reflexivity.
  - intros Hmu. munfold. msimpl. rewrite Hmu. reflexivity.
Qed.

(** ** The theorems at concrete inputs *)

Lemma healthy_ids : nonempty_ids healthy.
Proof. intros h id H. injection H as <-. discriminate. Qed.

Lemma started_state_reachable : reachable healthy started_state.
Proof.
  apply (reach_return healthy (OpStart 1 false []) initial None).
  - apply reach_New.
  - vm_compute. reflexivity.
Qed.

(** [Start_idempotent] on the healthy daemon: the second of two starts of a
    new controller. *)
Lemma Start_idempotent_witness :
  Start healthy 1 false [] started_state =
    Done None {| stk := stk started_state;
                 hist := hist started_state ++ [EvLock; EvUnlock] |}
  /\
  exists h1,
    hist started_state = hist initial ++ h1 /\
    calls isImageList h1 = 1%nat /\
    calls isCreate h1 = 1%nat /\
    calls isStart h1 = 1%nat /\
    Start healthy 1 false [] started_state =
      Done None
        {| stk := stk started_state;
           hist := hist initial ++ h1 ++ [EvLock; EvUnlock] |}.
Proof.
  split.
  - apply (proj1 (Start_idempotent healthy)); vm_compute; reflexivity.
  - apply (proj2 (Start_idempotent healthy) 1%nat 1%nat [] [] initial started_state);
      vm_compute; reflexivity.
Defined.

(** [Start_forceRestart_blocks] on the controller the healthy daemon has
    started. *)
Lemma Start_forceRestart_blocks_witness :
  Start healthy 1 true [] started_state =
    Blocked {| stk := set_mu true (stk started_state);
               hist := hist started_state ++ [EvLock] |}.
Proof.
  apply (Start_forceRestart_blocks healthy 1 [] started_state);
    vm_compute; reflexivity.
Defined.

(** [EndpointURL_contract] after a start on the healthy daemon. *)
Lemma EndpointURL_contract_witness :
  exists h hx ports b rest,
    hist started_state = h ++ hx /\
    last h = Some (EvContainerInspect (containerID (stk started_state))) /\
    ContainerInspect healthy h = inr ports /\
    ports !! FixedPort = Some (b :: rest) /\
    EndpointURL (stk started_state) = Some ("http://localhost:" +:+ HostPort b).
Proof.
  apply (proj2 (EndpointURL_contract healthy healthy_ids) started_state).
  - left. exact started_state_reachable.
  - vm_compute. reflexivity.
Defined.

(** [readiness_loop] with a timeout of one second and a silent container:
    the second iteration reads two seconds on the clock and gives up. *)
Lemma readiness_loop_witness :
  waitLoop silent 2 {| stk := impatient; hist := [] |} =
    Done (Some (InitTimeout 1))
      {| stk := impatient; hist := iterStart impatient [] 1 ++ [EvSince] |}.
Proof.
  assert (initTimeout impatient <= 9223372036) as Hle
      by (vm_compute; discriminate).
  apply (proj1 (readiness_loop silent impatient DockerClient eq_refl Hle)).
  split; [reflexivity|].
  exists 1%nat. split; [lia|]. split.
  - intros j Hj. assert (j = 0%nat) as -> by lia. vm_compute. split; reflexivity.
  - split; [vm_compute; reflexivity|]. split; reflexivity.
Defined.

(** [Stop_contract] on the controller the healthy daemon has started. *)
Lemma Stop_contract_witness :
  Stop healthy started_state =
    Done None
      {| stk := set_started false (set_containerID "" (stk started_state));
         hist :=
           (hist started_state ++
            [EvLock; EvContainerStop (containerID (stk started_state)) 10]) ++
           [EvUnlock] |}.
Proof.
  apply (proj2 (Stop_contract healthy started_state eq_refl)).
  - vm_compute. reflexivity.
  - vm_compute. discriminate.
  - vm_compute. discriminate.
Defined.

(** [started_invariant] after a start on the healthy daemon. *)
Lemma started_invariant_witness :
  nonempty_ids healthy /\ StartedInv healthy started_state.
Proof.
  split; [exact healthy_ids|].
  apply (proj2 (proj2 (started_invariant healthy healthy_ids))).
  exact started_state_reachable.
Defined.

(** [getVolumeMounts_contract] for one volume mount. *)
Lemma getVolumeMounts_contract_witness :
  let kvs := [("/etc/localstack/init.d", "/home/ci/init.d")]%string in
  length (getVolumeMounts_range kvs) = 2%nat /\
  List.filter (fun mt => negb (ReadOnly mt)) (getVolumeMounts_range kvs) =
    [sockMount].
Proof.
  intros kvs.
  assert (kvs ≡ₚ map_to_list
            ({[ "/etc/localstack/init.d" := "/home/ci/init.d" ]} : gmap string string))
    as Hperm by (rewrite map_to_list_singleton; reflexivity).
  destruct (getVolumeMounts_contract _ kvs Hperm) as (Hlen & _ & _ & Hrw).
  split; [|exact Hrw].
  rewrite Hlen, map_size_singleton. reflexivity.
Defined.


(** [watcher_bypasses_lock] while a caller holds the lock. *)
Lemma watcher_bypasses_lock_witness :
  watcher healthy cancelled_state =
    Done tt
      {| stk := set_started false (set_containerID "" (stk cancelled_state));
         hist :=
           hist cancelled_state ++
           [EvPrint ("Stopping Container: " +:+ containerID (stk cancelled_state)
                     +:+ newline);
            EvContainerStop (containerID (stk cancelled_state)) 10] |}
  /\ Stop healthy cancelled_state = Blocked cancelled_state.
Proof.
  destruct (watcher_bypasses_lock healthy cancelled_state DockerClient)
    as (Hw & Hb).
  - vm_compute. reflexivity.
  - vm_compute. reflexivity.
  - vm_compute. discriminate.
  - vm_compute. reflexivity.
  - vm_compute. reflexivity.
  - split; [exact Hw | apply Hb; vm_compute; reflexivity].
Defined.

(** [New_defaults] on a silent container: still polling after three rounds. *)
Lemma New_defaults_witness :
  exists st, Start silent 3 false [] initial = Running st /\
             calls isStart (hist st) = 1%nat /\
             started (stk st) = false.
Proof.
  pose (s1 := set_pm (Some (<[FixedPort := requested]> ∅))
                (set_cli (Some DockerClient) (set_mu true New))).
  eexists. split.
  - apply (proj2 New_defaults silent DockerClient
             {| stk := s1;
                hist := [EvLock; EvNewClient; EvGo; EvImageList LocalStackImage] |}
             "c0ffee"%string).
    + vm_compute. reflexivity.
    + vm_compute. reflexivity.
    + vm_compute. reflexivity.
    + vm_compute. reflexivity.
    + intros h. vm_compute. reflexivity.
  - split; vm_compute; reflexivity.
Defined.

(** ** Beyond the claims: the lock, the context and the calls made *)

(** A call of the shape [Lock; defer Unlock; body] gives the lock back
    whenever it returns or panics. *)
Lemma locked_releases {A} (body : M A) st :
  match (Lock ;;; defer Unlock body) st with
  | Done _ st' | Panicked _ st' => mu (stk st') = false
  | Blocked _ | Running _ => True
  end.
Proof.
  unfold Lock, Unlock, defer, bind, get, modify, emit, ret, panic, block.
  destruct (mu (stk st)); cbn [stk hist]; [exact I|].
  destruct (body _) as [a st1 | msg st1 | st1 | st1]; try exact I;
    destruct (mu (stk st1)) eqn:E; cbn [stk hist]; (reflexivity || exact E).
Qed.

Ltac no_stop :=
  repeat first
    [ exact I
    | apply Forall_nil
    | apply List.Forall_cons; [reflexivity|]
    | apply Forall_app; split
    | eapply Forall_impl; [eassumption|];
      intros [] ?; (reflexivity || discriminate) ].

Ltac leaf_frame :=
  subst; cbn [result_state]; msimpl;
  split; [congruence|];
  first
    [ exists []; split; [symmetry; apply app_nil_r | constructor]
    | eexists; split; [reflexivity|]; no_stop ].

(** A start leaves the context alone and never asks the daemon to stop a
    container, whatever its arguments and however it ends. *)
Lemma Start_frame rt fuel forceRestart opts st :
  let st' := result_state (Start rt fuel forceRestart opts st) in
  ctx (stk st') = ctx (stk st) /\
  exists hx, hist st' = hist st ++ hx /\ Forall (fun ev => isStop ev = false) hx.
Proof.
  destruct st as [s h0]. intros st'.
  assert (Ho : st' = result_state
                 (Start rt fuel forceRestart opts {| stk := s; hist := h0 |}))
    by reflexivity.
  clearbody st'. munfold. mnorm Ho.
  destruct (mu s) eqn:Hmu; mnorm Ho; [leaf_frame|].
  destruct (started s) eqn:Hs; mnorm Ho.
  { destruct forceRestart; mnorm Ho; leaf_frame. }
  rewrite applyOptions_set_mu in Ho.
  pose proof (applyOptions_frame opts s)
    as (Hamu & Hast & Hactx & Hacli & Hacid & Hapm).
  mrun Ho.
  all: rewrite <- ?Hactx; leaf_frame.
Qed.

Lemma Stop_frame rt st :
  let st' := result_state (Stop rt st) in
  ctx (stk st') = ctx (stk st).
Proof.
  destruct st as [s h0]. intros st'.
  assert (Ho : st' = result_state (Stop rt {| stk := s; hist := h0 |}))
    by reflexivity.
  clearbody st'. munfold. mnorm Ho. mrun Ho.
  all: subst st'; reflexivity.
Qed.

Lemma Start_releases rt fuel forceRestart opts st :
  match Start rt fuel forceRestart opts st with
  | Done _ st' | Panicked _ st' => mu (stk st') = false
  | Blocked _ | Running _ => True
  end.
Proof. unfold Start. apply locked_releases. Qed.

Lemma Stop_releases rt st :
  match Stop rt st with
  | Done _ st' | Panicked _ st' => mu (stk st') = false
  | Blocked _ | Running _ => True
  end.
Proof. unfold Stop. apply locked_releases. Qed.

Lemma step_fields rt op st :
  WellFormed st ->
  let st' := result_state (run_op rt op st) in
  ctx (stk st') = Some TODO /\
  pm (stk st') <> None /\
  (started (stk st') = true -> cli (stk st') <> None) /\
  (forall bs, fixedBinding (stk st') = Some bs -> bs <> []).
Proof.
  intros (_ & Hctx & Hpm & Hcli & Hbs) st'. subst st'.
  destruct op as [fuel force opts|]; cbn [run_op].
  - split.
    { destruct (Start_frame rt fuel force opts st) as (-> & _). exact Hctx. }
    destruct (started (stk st)) eqn:Hs.
    + destruct (Start_started_cases rt fuel force opts st Hs)
        as (_ & Hst & _ & Hc & Hp).
      rewrite Hp, Hc, Hst, (fixedBinding_pm _ _ Hp). auto.
    + destruct (Start_idle_cases rt fuel force opts st Hs)
        as (_ & [(Hst & Hwr) | (st' & -> & Hsucc)]).
      * rewrite Hst. split; [|split; [discriminate|]].
        -- destruct Hwr as [(-> & _) | (m & _ & -> & _)]; [exact Hpm | discriminate].
        -- destruct Hwr as [(Hp & _) | (m & _ & Hp & _)].
           ++ rewrite (fixedBinding_pm _ _ Hp). exact Hbs.
           ++ rewrite (fixedBinding_insert _ _ _ Hp). intros bs [= <-]. discriminate.
      * cbn [result_state].
        destruct Hsucc as (m & c & id & hpull & hw & ports & b & rest & Hsucc).
        cbv zeta in Hsucc.
        destruct Hsucc as (_ & _ & _ & _ & _ & _ & _ & _ & _ & _ & Hc & _ & Hp).
        rewrite Hc, Hp, (fixedBinding_insert _ _ _ Hp).
        split; [discriminate|]. split; [discriminate|].
        intros bs [= <-]. discriminate.
  - split.
    { rewrite (Stop_frame rt st). exact Hctx. }
    destruct (Stop_cases rt st) as (_ & Hc & Hp & Hsc).
    rewrite Hc, Hp, (fixedBinding_pm _ _ Hp).
    split; [exact Hpm|]. split; [|exact Hbs].
    destruct Hsc as [(-> & _) | (-> & _)]; [exact Hcli | discriminate].
Qed.

Lemma initial_WellFormed : WellFormed initial.
Proof.
  unfold WellFormed. cbn.
  split; [reflexivity|]. split; [reflexivity|]. split; [discriminate|].
  split; discriminate.
Qed.

Lemma reachable_WF rt st : reachable rt st -> WellFormed st.
Proof.
  induction 1 as [|op st r st' Hr IH Ho|op st msg st' Hr IH Ho].
  - apply initial_WellFormed.
  - pose proof (step_fields rt op st IH) as Hf. rewrite Ho in Hf.
    split; [|exact Hf].
    destruct op as [fuel force opts|]; cbn [run_op] in Ho.
    + pose proof (Start_releases rt fuel force opts st) as Hl.
      rewrite Ho in Hl. exact Hl.
    + pose proof (Stop_releases rt st) as Hl. rewrite Ho in Hl. exact Hl.
  - pose proof (step_fields rt op st IH) as Hf. rewrite Ho in Hf.
    split; [|exact Hf].
    destruct op as [fuel force opts|]; cbn [run_op] in Ho.
    + pose proof (Start_releases rt fuel force opts st) as Hl.
      rewrite Ho in Hl. exact Hl.
    + pose proof (Stop_releases rt st) as Hl. rewrite Ho in Hl. exact Hl.
Qed.

(** X1.  Between calls of a controller built by [New] and driven by [Start]
    and [Stop], the lock is free, the context is still [context.TODO()], the
    port map is not nil, a started controller has its client, and a binding
    recorded for the fixed port is never empty.  The lock in particular is
    given back on every return and on every panic. *)
Theorem reachable_WellFormed rt st :
  reachable rt st ->
  WellFormed st /\
  (forall op,
      match run_op rt op st with
      | Done _ st' | Panicked _ st' => mu (stk st') = false
      | Blocked _ | Running _ => True
      end).
Proof.
  intros Hr. split; [apply (reachable_WF rt), Hr|].
  intros [fuel force opts|]; cbn [run_op];
    [apply Start_releases | apply Stop_releases].
Qed.

(** X2.  [Start] never asks the daemon to stop a container: whatever the
    state, the flag and the options, and however the call ends, the calls it
    adds to the history hold no [ContainerStop]; it also leaves the context
    untouched. *)
Theorem Start_never_stops rt fuel forceRestart opts st :
  let st' := result_state (Start rt fuel forceRestart opts st) in
  ctx (stk st') = ctx (stk st) /\
  exists hx,
    hist st' = hist st ++ hx /\ calls isStop hx = 0%nat.
Proof.
  intros st'. destruct (Start_frame rt fuel forceRestart opts st)
    as (Hctx & hx & Hh & Hns).
  split; [exact Hctx|]. exists hx. split; [exact Hh|].
  clear Hh. induction Hns as [|ev hx Hev _ IH]; [reflexivity|].
  unfold calls in *. cbn [List.filter]. rewrite Hev. exact IH.
Qed.

(** ** Beyond the claims: Stop and the watcher *)

(** X3.  From a state between calls, [Stop] always returns: it finds the lock
    free and, when it has a container to stop, a client to stop it with, so
    it neither blocks nor panics. *)
Theorem Stop_returns rt st :
  reachable rt st -> exists r st', Stop rt st = Done r st'.
Proof.
  intros Hr. destruct (reachable_WF rt st Hr) as (Hmu & _ & _ & Hcli & _).
  destruct st as [s h0]. cbn [stk hist] in *.
  munfold. msimpl. rewrite Hmu. msimpl.
  destruct (started s) eqn:Hs; msimpl; [|eexists _, _; reflexivity].
  destruct (containerID s =? "")%string; msimpl; [eexists _, _; reflexivity|].
  destruct (cli s) as [c|]; [|exfalso; apply Hcli; reflexivity].
  msimpl. destruct (ContainerStop rt _); msimpl; eexists _, _; reflexivity.
Qed.

(** X4.  [Stop] is idempotent: after a [Stop] that returned nil, the next
    [Stop] returns nil again, calls nothing and changes nothing. *)
Theorem Stop_idempotent rt st st1 :
  mu (stk st) = false ->
  Stop rt st = Done None st1 ->
  Stop rt st1 =
    Done None {| stk := stk st1; hist := hist st1 ++ [EvLock; EvUnlock] |}.
Proof.
  intros Hmu Ho. destruct st as [s h0]. cbn [stk hist] in *.
  assert (mu (stk st1) = false /\
          negb (started (stk st1)) || (containerID (stk st1) =? "")%string = true)
    as (Hmu1 & Hidle).
  { symmetry in Ho. munfold. mnorm Ho. rewrite Hmu in Ho. mnorm Ho.
    mrun Ho; try discriminate Ho; injection Ho as ->; msimpl; auto. }
  clear Ho. destruct st1 as [s1 h1]. cbn [stk hist] in *.
  munfold. msimpl. rewrite Hmu1. msimpl. rewrite Hidle. msimpl.
  rewrite <- app_assoc. cbn [app]. rewrite (set_mu_round s1 Hmu1). reflexivity.
Qed.

(** X5.  A [Stop] that returns nil on a started controller with a container
    has stopped it: afterwards the controller is idle, holds no identifier
    and [EndpointURL] is empty, although the port map still holds the binding
    of the container that is gone. *)
Theorem Stop_clears_endpoint rt st st1 :
  mu (stk st) = false ->
  started (stk st) = true ->
  containerID (stk st) <> ""%string ->
  Stop rt st = Done None st1 ->
  started (stk st1) = false /\
  containerID (stk st1) = ""%string /\
  pm (stk st1) = pm (stk st) /\
  EndpointURL (stk st1) = Some ""%string /\
  calls isStop (hist st1) = S (calls isStop (hist st)).
Proof.
  intros Hmu Hs Hid Ho. destruct st as [s h0]. cbn [stk hist] in *.
  apply String.eqb_neq in Hid.
  symmetry in Ho. munfold. mnorm Ho. rewrite Hmu in Ho. mnorm Ho.
  rewrite Hs, Hid in Ho. mnorm Ho.
  mrun Ho; try discriminate Ho. injection Ho as ->. msimpl.
  repeat split.
  rewrite calls_app.
  change (calls isStop [EvLock; EvContainerStop (containerID s) 10; EvUnlock])
    with 1%nat.
  lia.
Qed.

(** X6.  The exit watcher of a controller built by [New] never fires: the
    context stays [context.TODO()], whose [Done] channel is nil, so in every
    state between calls the goroutine blocks on the receive and neither
    prints, stops the container nor writes a field. *)
Theorem watcher_never_fires rt st :
  reachable rt st -> watcher rt st = Blocked st.
Proof.
  intros Hr. destruct (reachable_WF rt st Hr) as (_ & Hctx & _).
  unfold watcher, bind, get, block. rewrite Hctx. reflexivity.
Qed.

(** X7.  Once its context is cancelled, the watcher prints and runs [stop].
    On an idle controller that is all it does.  On a started controller whose
    [ContainerStop] fails with [e], it panics with the message of [e] and
    leaves [containerID] and [started] as they were. *)
Theorem watcher_after_cancel rt st :
  ctx (stk st) = Some (WithCancel true) ->
  let h1 :=
    hist st ++
    [EvPrint ("Stopping Container: " +:+ containerID (stk st) +:+ newline)] in
  (started (stk st) = false ->
   watcher rt st = Done tt {| stk := stk st; hist := h1 |})
  /\
  (forall c e,
      started (stk st) = true ->
      containerID (stk st) <> ""%string ->
      cli (stk st) = Some c ->
      ContainerStop rt (h1 ++ [EvContainerStop (containerID (stk st)) 10]) =
        Some e ->
      watcher rt st =
        Panicked (Error e)
          {| stk := stk st;
             hist := h1 ++ [EvContainerStop (containerID (stk st)) 10] |}).
Proof.
  intros Hctx h1. destruct st as [s h0]. cbn [stk hist] in *. split.
  - intros Hs. munfold. msimpl. rewrite Hctx. msimpl. rewrite Hs. reflexivity.
  - intros c e Hs Hid Hc Hstop. apply String.eqb_neq in Hid.
    munfold. msimpl. rewrite Hctx. msimpl. rewrite Hs, Hid. msimpl.
    rewrite Hc. msimpl. fold h1. rewrite Hstop. reflexivity.
Qed.

(** ** Beyond the claims: the endpoint, provisioning and early failures *)

(** X8.  [EndpointURL] never panics on a controller built by [New]: in every
    state a caller can observe, between calls or while one is in progress,
    the binding it indexes is absent or not empty. *)
Theorem EndpointURL_never_panics rt st :
  observable rt st -> exists url, EndpointURL (stk st) = Some url.
Proof.
  intros Hobs.
  assert (forall bs, fixedBinding (stk st) = Some bs -> bs <> []) as Hbs.
  { destruct Hobs as [Hr | (st0 & op & Hr & ->)].
    - apply (reachable_WF rt st Hr).
    - apply (step_fields rt op st0 (reachable_WF rt st0 Hr)). }
  unfold EndpointURL. destruct (negb _); [|eexists; reflexivity].
  unfold fixedBinding in Hbs.
  destruct (pm (stk st) ≫= (.!! FixedPort)) as [[|p0 port]|];
    try (eexists; reflexivity).
  exfalso. apply (Hbs [] eq_refl). reflexivity.
Qed.

Lemma existsb_tagged imageName images :
  existsb (fun repoTags => existsb (String.eqb imageName) repoTags) images = true
  <-> tagged imageName images.
Proof.
  unfold tagged. rewrite List.existsb_exists. split.
  - intros (repoTags & Hin & Htag). apply List.existsb_exists in Htag.
    destruct Htag as (tag & Hin' & Heq). apply String.eqb_eq in Heq. subst tag.
    exists repoTags. split; assumption.
  - intros (repoTags & Hin & Hin'). exists repoTags. split; [exact Hin|].
    apply List.existsb_exists. exists imageName. split; [exact Hin'|].
    apply String.eqb_refl.
Qed.

(** X9.  [ensureImage] lists the images once.  A failed listing is returned
    and nothing is pulled.  When some listed image carries exactly the tag
    asked for, it returns nil without pulling.  Otherwise it pulls once and
    returns the error of the pull or, when the pull started, the outcome of
    draining its stream.  The controller is not touched. *)
Theorem ensureImage_contract rt s c h imageName :
  cli s = Some c ->
  let h1 := h ++ [EvImageList imageName] in
  let h2 := h1 ++ [EvImagePull imageName] in
  match ImageList rt h1 with
  | inl err =>
      ensureImage rt imageName {| stk := s; hist := h |} =
        Done (Some err) {| stk := s; hist := h1 |}
  | inr images =>
      (tagged imageName images ->
       ensureImage rt imageName {| stk := s; hist := h |} =
         Done None {| stk := s; hist := h1 |})
      /\
      (~ tagged imageName images ->
       ensureImage rt imageName {| stk := s; hist := h |} =
         Done (match ImagePull rt h2 with
               | inl err => Some err
               | inr drained => drained
               end)
           {| stk := s; hist := h2 |})
  end.
Proof.
  intros Hc h1 h2. subst h1 h2. unfold ensureImage, call. munfold. msimpl.
  rewrite Hc. msimpl.
  destruct (ImageList rt _) as [err|images]; [reflexivity|].
  destruct (existsb _ images) eqn:Ex.
  - split; [reflexivity|]. intros Hn. exfalso. apply Hn, existsb_tagged, Ex.
  - split.
    + intros Ht. apply existsb_tagged in Ht. congruence.
    + intros _. msimpl. rewrite Hc. msimpl.
      destruct (ImagePull rt _) as [err|drained]; reflexivity.
Qed.

(** [ensureImage] creates nothing. *)
Lemma ensureImage_events rt img st :
  exists hp,
    result_state (ensureImage rt img st) =
      {| stk := stk st; hist := hist st ++ hp |} /\
    calls isCreate hp = 0%nat.
Proof.
  destruct st as [s h0].
  set (st' := result_state _).
  assert (Ho : st' = result_state (ensureImage rt img {| stk := s; hist := h0 |}))
    by reflexivity.
  clearbody st'. munfold. mnorm Ho. mrun Ho.
  all: subst st'; cbn [result_state stk hist].
  all: first [ exists []; split; [rewrite app_nil_r; reflexivity | reflexivity]
             | eexists; split; reflexivity ].
Qed.

(** X10.  When provisioning fails, [Start] returns the error of
    [ensureImage] and creates no container: the history gains no
    [ContainerCreate], [started] stays false and [containerID] is left as it
    was, while the port map already holds the requested binding. *)
Theorem Start_provision_error rt fuel forceRestart opts st m c st2 e :
  mu (stk st) = false ->
  started (stk st) = false ->
  pm (stk st) = Some m ->
  NewClientWithOpts rt (hist st ++ [EvLock; EvNewClient]) = inr c ->
  let s0 := applyOptions opts (stk st) in
  let s1 :=
    set_pm (Some (<[FixedPort := requested]> m))
      (set_cli (Some c) (set_mu true s0)) in
  ensureImage rt LocalStackImage
    {| stk := s1; hist := hist st ++ [EvLock; EvNewClient; EvGo] |} =
    Done (Some e) st2 ->
  Start rt fuel forceRestart opts st =
    Done (Some e) {| stk := set_mu false s1; hist := hist st2 ++ [EvUnlock] |}
  /\ calls isCreate (hist st2 ++ [EvUnlock]) = calls isCreate (hist st)
  /\ started (set_mu false s1) = false
  /\ containerID (set_mu false s1) = containerID (stk st)
  /\ fixedBinding (set_mu false s1) = Some requested.
Proof.
  intros Hmu Hs Hpm Hnew s0 s1 Hens.
  destruct st as [s h0]. cbn [stk hist] in *.
  pose proof (applyOptions_frame opts s)
    as (Hamu & Hast & _ & Hacli & Hacid & Hapm).
  destruct (ensureImage_events rt LocalStackImage
              {| stk := s1; hist := h0 ++ [EvLock; EvNewClient; EvGo] |})
    as (hp & Hfr & Hnc).
  rewrite Hens in Hfr. cbn [result_state stk hist] in Hfr. subst st2.
  split; [|split; [|split; [|split]]].
  - unfold Start, configureAndStart, start, getVolumeMounts, call, assignPM,
      Lock, Unlock, defer, bind, get, modify, emit, history, ret, panic, block.
    msimpl. rewrite Hmu. msimpl. rewrite Hs. msimpl.
    rewrite applyOptions_set_mu. rewrite <- !app_assoc. cbn [app].
    rewrite Hnew. msimpl. rewrite Hapm, Hpm. msimpl.
    rewrite <- !app_assoc. cbn [app]. fold s0. fold requested.
    change (set_pm _ (set_cli (Some c) (set_mu true s0))) with s1.
    rewrite <- !app_assoc in Hens. cbn [app] in Hens.
    rewrite Hens. subst s1. msimpl. rewrite <- !app_assoc. reflexivity.
  - cbn [hist]. rewrite !calls_app, Hnc.
    change (calls isCreate [EvLock; EvNewClient; EvGo]) with 0%nat.
    change (calls isCreate [EvUnlock]) with 0%nat. lia.
  - subst s1 s0. msimpl. rewrite Hast. exact Hs.
  - subst s1 s0. msimpl. exact Hacid.
  - eapply fixedBinding_insert. reflexivity.
Qed.

(** X11.  When no client can be built, [Start] returns that error after it
    has applied the options: the configuration of the failed call stays, no
    watcher is spawned and the daemon is never called. *)
Theorem Start_client_error rt fuel forceRestart opts st e :
  mu (stk st) = false ->
  started (stk st) = false ->
  NewClientWithOpts rt (hist st ++ [EvLock; EvNewClient]) = inl e ->
  Start rt fuel forceRestart opts st =
    Done (Some e)
      {| stk := applyOptions opts (stk st);
         hist := hist st ++ [EvLock; EvNewClient; EvUnlock] |}.
Proof.
  intros Hmu Hs Hnew. destruct st as [s h0]. cbn [stk hist] in *.
  pose proof (applyOptions_frame opts s) as (Hamu & _).
  munfold. msimpl. rewrite Hmu. msimpl. rewrite Hs. msimpl.
  rewrite applyOptions_set_mu. rewrite <- !app_assoc. cbn [app].
  rewrite Hnew. msimpl. rewrite <- !app_assoc. cbn [app].
  rewrite set_mu_round by congruence. reflexivity.
Qed.

(** X12.  A controller whose port map is nil, such as the zero value of
    [Stack], cannot be started: once the client is built and the watcher
    spawned, the first write to the port map panics, before any call to the
    daemon; the lock is given back. *)
Theorem Start_nil_map_panics rt fuel forceRestart opts st c :
  mu (stk st) = false ->
  started (stk st) = false ->
  pm (stk st) = None ->
  NewClientWithOpts rt (hist st ++ [EvLock; EvNewClient]) = inr c ->
  Start rt fuel forceRestart opts st =
    Panicked "assignment to entry in nil map"
      {| stk := set_cli (Some c) (applyOptions opts (stk st));
         hist := hist st ++ [EvLock; EvNewClient; EvGo; EvUnlock] |}.
Proof.
  intros Hmu Hs Hpm Hnew. destruct st as [s h0]. cbn [stk hist] in *.
  pose proof (applyOptions_frame opts s) as (Hamu & _ & _ & _ & _ & Hapm).
  munfold. msimpl. rewrite Hmu. msimpl. rewrite Hs. msimpl.
  rewrite applyOptions_set_mu. rewrite <- !app_assoc. cbn [app].
  rewrite Hnew. msimpl. rewrite Hapm, Hpm. msimpl.
  rewrite <- !app_assoc. cbn [app]. f_equal. f_equal.
  rewrite Hmu in Hamu. destruct (applyOptions opts s); cbn in *; subst; reflexivity.
Qed.

(** ** Beyond the claims: readiness and port resolution *)

Ltac mwait_outcome Ho :=
  match type of Ho with
  | context [waitLoop ?rt ?fuel {| stk := ?S; hist := ?H |}] =>
      match S with
      | context [set_cli (Some ?c) _] =>
          let k := fresh "k" in
          let Hr := fresh "Hr" in
          let Hw := fresh "Hw" in
          destruct (waitLoop_outcome rt S c eq_refl fuel H)
            as [(k & _ & _ & _ & Hw) | [(k & _ & _ & _ & Hr & Hw) | (_ & Hw)]];
          rewrite Hw in Ho; clear Hw; mnorm Ho
      end
  end.

Ltac mrun_outcome Ho :=
  repeat first [ progress (frame_rw Ho; mnorm Ho) | mcase Ho | mwait_outcome Ho ].

(** X13.  A start that waits for readiness only succeeds after a poll has
    seen the marker: the last call before the inspection is a log fetch of
    the new container whose content contains the marker. *)
Theorem Start_success_saw_marker rt fuel forceRestart opts st st' :
  started (stk st) = false ->
  waitForInit (applyOptions opts (stk st)) = true ->
  Start rt fuel forceRestart opts st = Done None st' ->
  started (stk st') = true ->
  exists h logContent,
    hist st' = h ++ [EvContainerInspect (containerID (stk st')); EvUnlock] /\
    last h = Some (EvContainerLogs (containerID (stk st'))) /\
    ContainerLogs rt h = inr (inr logContent) /\
    Contains logContent (marker (applyOptions opts (stk st))) = true.
Proof.
  destruct st as [s h0]. cbn [stk hist]. intros Hs Hwait Ho Hs'.
  symmetry in Ho. munfold. mnorm Ho.
  destruct (mu s) eqn:Hmu; mnorm Ho; [discriminate Ho|].
  rewrite Hs in Ho. mnorm Ho. rewrite applyOptions_set_mu in Ho.
  pose proof (applyOptions_frame opts s)
    as (Hamu & Hast & _ & Hacli & Hacid & Hapm).
  mrun_outcome Ho.
  all: try discriminate Ho.
  all: injection Ho as ->; msimpl.
  all: try congruence.
  all: unfold readyAt, readyAnswer in Hr;
    match type of Hr with
    | context [ContainerLogs ?r ?h] =>
        destruct (ContainerLogs r h) as [?|[?|logContent]] eqn:Hlogs;
        try discriminate Hr;
        exists h, logContent
    end;
    (split; [reflexivity|]);
    (split; [unfold pollAt; rewrite !app_assoc; apply last_snoc|]);
    (split; [exact Hlogs | exact Hr]).
Qed.

(** X14.  With the readiness wait switched off, a successful start fetches no
    log, reads no clock and never sleeps: between [ContainerStart] and the
    inspection it calls nothing. *)
Theorem Start_nowait_no_polls rt fuel forceRestart opts st st' :
  started (stk st) = false ->
  waitForInit (applyOptions opts (stk st)) = false ->
  Start rt fuel forceRestart opts st = Done None st' ->
  started (stk st') = true ->
  exists h1,
    hist st' =
      hist st ++ h1 ++
      [EvContainerStart (containerID (stk st')); EvNow;
       EvContainerInspect (containerID (stk st')); EvUnlock] /\
    calls isPollEvent h1 = 0%nat.
Proof.
  intros Hs Hwait Ho Hs'.
  destruct (Start_idle_cases rt fuel forceRestart opts st Hs)
    as (_ & [(Hst & _) | (st1 & Ho' & Hsucc)]).
  { rewrite Ho in Hst. cbn [result_state] in Hst. congruence. }
  rewrite Ho in Ho'. injection Ho' as <-.
  destruct Hsucc as (m & c & id & hpull & hw & ports & b & rest & Hsucc).
  cbv zeta in Hsucc.
  destruct Hsucc as (_ & Hpull & _ & Hhw & _ & _ & _ & Hhist & _ & _ & _ & Hid & _).
  rewrite (Hhw Hwait) in Hhist. rewrite Hid, Hhist.
  exists ([EvLock; EvNewClient; EvGo; EvImageList LocalStackImage] ++ hpull ++
          [EvContainerCreate LocalStackImage (<[FixedPort := requested]> m)
             (getVolumeMounts (applyOptions opts (stk st))) true
             (containerName (applyOptions opts (stk st)))]).
  split; [rewrite <- !app_assoc; reflexivity|].
  rewrite !calls_app.
  assert (calls isPollEvent hpull = 0%nat) as ->
      by (destruct Hpull as [-> | ->]; reflexivity).
  unfold calls. cbn [List.filter isPollEvent length]. reflexivity.
Qed.

(** X15.  When the inspection reports no binding for the fixed port, [Start]
    panics on the index into the empty list: it returns nothing, gives the
    lock back, and leaves the controller not started with the identifier of
    the running container recorded and the requested binding in the port
    map. *)
Theorem Start_no_bindings_panics
    rt fuel forceRestart opts st m c st2 id stw ports :
  mu (stk st) = false ->
  started (stk st) = false ->
  pm (stk st) = Some m ->
  NewClientWithOpts rt (hist st ++ [EvLock; EvNewClient]) = inr c ->
  let s0 := applyOptions opts (stk st) in
  let s1 :=
    set_pm (Some (<[FixedPort := requested]> m))
      (set_cli (Some c) (set_mu true s0)) in
  ensureImage rt LocalStackImage
    {| stk := s1; hist := hist st ++ [EvLock; EvNewClient; EvGo] |} =
    Done None st2 ->
  let hc :=
    hist st2 ++
    [EvContainerCreate LocalStackImage (<[FixedPort := requested]> m)
       (getVolumeMounts s0) true (containerName s0)] in
  ContainerCreate rt hc = inr id ->
  ContainerStart rt (hc ++ [EvContainerStart id]) = None ->
  (if waitForInit s0 then waitLoop rt fuel else ret None)
    {| stk := set_containerID id s1;
       hist := hc ++ [EvContainerStart id; EvNow] |} = Done None stw ->
  ContainerInspect rt (hist stw ++ [EvContainerInspect id]) = inr ports ->
  (ports !! FixedPort = None \/ ports !! FixedPort = Some []) ->
  Start rt fuel forceRestart opts st =
    Panicked "index out of range [0] with length 0"
      {| stk := set_mu false (set_containerID id s1);
         hist := hist stw ++ [EvContainerInspect id; EvUnlock] |}
  /\ started (set_mu false (set_containerID id s1)) = false
  /\ containerID (set_mu false (set_containerID id s1)) = id
  /\ fixedBinding (set_mu false (set_containerID id s1)) = Some requested.
Proof.
  intros Hmu Hs Hpm Hnew s0 s1 Hens hc Hcreate Hstart Hwait Hinsp Hports.
  split; [|split; [|split]].
  - rewrite (Start_enters_wait rt fuel forceRestart opts st m c st2 id
               Hmu Hs Hpm Hnew Hens Hcreate Hstart).
    fold s0 s1 hc. unfold defer. unfold bind at 1. rewrite Hwait.
    assert (stk stw = set_containerID id s1) as Hstk.
    { destruct (waitForInit s0).
      - destruct (waitLoop_frame rt fuel
                    {| stk := set_containerID id s1;
                       hist := hc ++ [EvContainerStart id; EvNow] |})
          as (hw & _ & Hres).
        rewrite Hwait in Hres. cbn [result_state] in Hres. rewrite Hres.
        reflexivity.
      - unfold ret in Hwait. injection Hwait as <-. reflexivity. }
    destruct stw as [sw hw]. cbn [stk hist] in *. subst sw.
    unfold resolvePort, call, assignPM, Unlock, bind, get, modify, emit,
      history, ret, panic.
    subst s1. msimpl. rewrite Hinsp.
    destruct Hports as [-> | ->]; msimpl; rewrite <- !app_assoc; reflexivity.
  - subst s1 s0. msimpl.
    destruct (applyOptions_frame opts (stk st)) as (_ & -> & _). exact Hs.
  - reflexivity.
  - eapply fixedBinding_insert. reflexivity.
Qed.

(** X16.  The timeout wraps.  For [initTimeout] from 9223372037 to
    18446744073 seconds the product with [time.Second] overflows 64 bits into
    a negative duration, so the first check of the loop finds the timeout
    exceeded as soon as the clock reads a non-negative elapsed time: the
    loop returns the timeout error at once, without fetching the log. *)
Theorem timeout_overflow rt s c h fuel :
  cli s = Some c ->
  9223372037 <= initTimeout s <= 18446744073 ->
  0 <= Since rt (h ++ [EvSince]) ->
  timeoutDuration s = initTimeout s * 1000000000 - 2 ^ 64 /\
  timeoutDuration s < 0 /\
  waitLoop rt (S fuel) {| stk := s; hist := h |} =
    Done (Some (InitTimeout (initTimeout s)))
      {| stk := s; hist := h ++ [EvSince] |}.
Proof.
  intros Hc Hrange Hclock.
  assert (timeoutDuration s = initTimeout s * 1000000000 - 2 ^ 64) as Hd.
  { unfold timeoutDuration, wrap64, Second.
    replace (initTimeout s * 1000000000 + 2 ^ 63)
      with ((initTimeout s * 1000000000 - 2 ^ 63) + 1 * 2 ^ 64) by lia.
    rewrite Z.mod_add by lia. rewrite Z.mod_small by lia. lia. }
  split; [exact Hd|]. split; [lia|].
  rewrite (waitLoop_turn rt s c fuel h Hc).
  assert ((0 <? initTimeout s) = true) as Hpos by (apply Z.ltb_lt; lia).
  unfold expiredAt, sinceCheck. rewrite Hpos. cbn [andb].
  assert ((timeoutDuration s <? Since rt (h ++ [EvSince])) = true) as ->
      by (apply Z.ltb_lt; lia).
  reflexivity.
Qed.

(** ** Beyond the claims: the functional probe *)

(** X17.  [isFunctional] answers true exactly when the controller is started,
    the configuration loads, and [CreateQueue], sent to the endpoint of
    [EndpointURL] for the queue [test-queue], returns a queue URL that is not
    nil; it then sends one [DeleteQueue] for that URL to the same endpoint,
    whose outcome does not count.  On a controller that is not started it
    answers false without touching the SDK. *)
Theorem isFunctional_contract aws s h :
  (started s = false -> isFunctional aws s h = (Some false, h)) /\
  (forall h',
      isFunctional aws s h = (Some true, h') <->
      started s = true /\
      exists url queueUrl,
        let creds :=
          {| AccessKeyID := "dummy"; SecretAccessKey := "dummy";
             SessionToken := "dummy" |} in
        let endpoint :=
          {| PartitionID := "aws"; URL := url; SigningRegion := "us-east-1";
             HostnameImmutable := true |} in
        let h1 := h ++ [EvLoadDefaultConfig "us-east-1" creds] in
        let h2 := h1 ++ [EvCreateQueue endpoint "test-queue"] in
        EndpointURL s = Some url /\
        LoadDefaultConfig aws h1 = None /\
        CreateQueue aws h2 = inr (Some queueUrl) /\
        h' = h2 ++ [EvDeleteQueue endpoint queueUrl]).
Proof.
  split.
  - intros Hs. unfold isFunctional. rewrite Hs. reflexivity.
  - intros h'. unfold isFunctional, createTestConfig.
    destruct (started s); cbn [negb].
    2:{ split; [discriminate | intros [[=] _]]. }
    destruct (LoadDefaultConfig aws _) as [err|] eqn:Hload.
    { split; [discriminate|]. intros (_ & url & q & _ & Habs & _).
      cbv zeta in Habs. congruence. }
    cbn [EndpointResolver].
    destruct (EndpointURL s) as [url|] eqn:Hurl; cbn [mbind option_bind].
    2:{ split; [discriminate|]. intros (_ & url & q & [=] & _). }
    destruct (CreateQueue aws _) as [err|[q|]] eqn:Hcreate.
    + split; [discriminate|]. intros (_ & url' & q & [= <-] & _ & Habs & _).
      cbv zeta in Habs. congruence.
    + split.
      * intros [= <-]. split; [reflexivity|]. exists url, q. cbv zeta.
        repeat split; assumption.
      * intros (_ & url' & q' & [= <-] & _ & Hc & ->). cbv zeta in Hc.
        rewrite Hcreate in Hc. injection Hc as <-. reflexivity.
    + split; [discriminate|]. intros (_ & url' & q & [= <-] & _ & Habs & _).
      cbv zeta in Habs. congruence.
Qed.

(** X18.  On a controller built by [New], with a daemon that never returns an
    empty identifier, the probe never panics.  On an idle controller it calls
    nothing; on a started one every request it sends goes to
    [http://localhost:] followed by the host port that an inspection
    reported, with an immutable host name and the region [us-east-1]. *)
Theorem isFunctional_endpoint rt aws st h :
  nonempty_ids rt ->
  observable rt st ->
  exists result hx,
    isFunctional aws (stk st) h = (Some result, h ++ hx) /\
    (started (stk st) = false -> hx = [] /\ result = false) /\
    (started (stk st) = true ->
     exists hd hd' ports b rest,
       hist st = hd ++ hd' /\
       ContainerInspect rt hd = inr ports /\
       ports !! FixedPort = Some (b :: rest) /\
       Forall (sentTo {| PartitionID := "aws";
                         URL := "http://localhost:" +:+ HostPort b;
                         SigningRegion := "us-east-1";
                         HostnameImmutable := true |}) hx).
Proof.
  intros Hids Hobs.
  destruct (observable_invs rt st Hids Hobs) as [Hinv _].
  unfold isFunctional, createTestConfig.
  destruct (started (stk st)) eqn:Hs; cbn [negb].
  2:{ exists false, []. rewrite app_nil_r.
      split; [reflexivity|]. split; [auto | discriminate]. }
  destruct (Hinv Hs)
    as (Hne & hd & hd' & ports & b & rest & H1 & _ & H2 & H3 & H4).
  pose proof (EndpointURL_owned _ _ Hne H4) as Hurl. cbn [resolved] in Hurl.
  change ("http://" +:+ HostIP {| HostIP := "localhost"; HostPort := HostPort b |}
          +:+ ":" +:+ HostPort {| HostIP := "localhost"; HostPort := HostPort b |})
    with ("http://localhost:" +:+ HostPort b) in Hurl.
  destruct (LoadDefaultConfig aws _) as [err|].
  { eexists _, _. split; [reflexivity|]. split; [discriminate|]. intros _.
    exists hd, hd', ports, b, rest. repeat (split; [assumption|]).
    repeat constructor. }
  cbn [EndpointResolver]. rewrite Hurl. cbn [mbind option_bind].
  destruct (CreateQueue aws _) as [err|[q|]];
    rewrite <- ?app_assoc;
    (eexists _, _; split; [reflexivity|]);
    (split; [discriminate|]); intros _;
    exists hd, hd', ports, b, rest;
    repeat (split; [assumption|]);
    repeat constructor.
Qed.

(** ** The further theorems at concrete inputs *)

(** [reachable_WellFormed] after a start on the healthy daemon. *)
Lemma reachable_WellFormed_witness : WellFormed started_state.
Proof.
  apply (proj1 (reachable_WellFormed healthy started_state
                  started_state_reachable)).
Defined.

(** [Stop_returns] after a start on the healthy daemon. *)
Lemma Stop_returns_witness :
  exists r st', Stop healthy started_state = Done r st'.
Proof. apply (Stop_returns healthy started_state started_state_reachable). Defined.

(** [Stop_idempotent]: a second [Stop] after [Start] and [Stop]. *)
Lemma Stop_idempotent_witness :
  Stop healthy stopped_state =
    Done None {| stk := stk stopped_state;
                 hist := hist stopped_state ++ [EvLock; EvUnlock] |}.
Proof.
  apply (Stop_idempotent healthy started_state stopped_state);
    vm_compute; reflexivity.
Defined.

(** [Stop_clears_endpoint] after a start on the healthy daemon. *)
Lemma Stop_clears_endpoint_witness :
  started (stk stopped_state) = false /\
  containerID (stk stopped_state) = ""%string /\
  pm (stk stopped_state) = pm (stk started_state) /\
  EndpointURL (stk stopped_state) = Some ""%string /\
  calls isStop (hist stopped_state) = S (calls isStop (hist started_state)).
Proof.
  apply (Stop_clears_endpoint healthy started_state stopped_state).
  - vm_compute. reflexivity.
  - vm_compute. reflexivity.
  - vm_compute. discriminate.
  - vm_compute. reflexivity.
Defined.

(** [watcher_never_fires] after a start on the healthy daemon. *)
Lemma watcher_never_fires_witness :
  watcher healthy started_state = Blocked started_state.
Proof.
  apply (watcher_never_fires healthy started_state started_state_reachable).
Defined.

(** [watcher_after_cancel] on an idle controller, and on a started one whose
    container cannot be stopped. *)
Lemma watcher_after_cancel_witness :
  watcher healthy cancelled_idle =
    Done tt
      {| stk := stk cancelled_idle;
         hist := [EvPrint ("Stopping Container: " +:+ "" +:+ newline)] |}
  /\
  exists st',
    watcher stopFails cancelled_state =
      Panicked "No such container: c0ffee" st' /\
    started (stk st') = true.
Proof.
  split.
  - apply (proj1 (watcher_after_cancel healthy cancelled_idle eq_refl)).
    reflexivity.
  - eexists. split.
    + apply (proj2 (watcher_after_cancel stopFails cancelled_state eq_refl)
               DockerClient (ClientError "No such container: c0ffee")).
      * vm_compute. reflexivity.
      * vm_compute. discriminate.
      * vm_compute. reflexivity.
      * reflexivity.
    + vm_compute. reflexivity.
Defined.

(** [EndpointURL_never_panics] after a start on the healthy daemon. *)
Lemma EndpointURL_never_panics_witness :
  exists url, EndpointURL (stk started_state) = Some url.
Proof.
  apply (EndpointURL_never_panics healthy started_state).
  left. exact started_state_reachable.
Defined.

(** [ensureImage_contract] on a daemon that lists another tag only. *)
Lemma ensureImage_contract_witness :
  ensureImage mustPull LocalStackImage {| stk := impatient; hist := [] |} =
    Done None
      {| stk := impatient;
         hist := [EvImageList LocalStackImage; EvImagePull LocalStackImage] |}.
Proof.
  pose proof (ensureImage_contract mustPull impatient DockerClient []
                LocalStackImage eq_refl) as H.
  cbv zeta in H. cbn [ImageList mustPull] in H.
  apply (proj2 H).
  intros (repoTags & Hin & Htag).
  destruct Hin as [<- | []]. destruct Htag as [Heq | []]. discriminate Heq.
Defined.

(** [Start_provision_error] on a daemon that cannot list images. *)
Lemma Start_provision_error_witness :
  exists st',
    Start listFails 1 false [] initial =
      Done (Some (ClientError "Cannot connect to the Docker daemon")) st' /\
    calls isCreate (hist st') = 0%nat /\
    started (stk st') = false /\
    containerID (stk st') = ""%string.
Proof.
  pose (s1 := set_pm (Some (<[FixedPort := requested]> ∅))
                (set_cli (Some DockerClient) (set_mu true New))).
  destruct (Start_provision_error listFails 1 false [] initial ∅ DockerClient
              {| stk := s1;
                 hist := [EvLock; EvNewClient; EvGo; EvImageList LocalStackImage] |}
              (ClientError "Cannot connect to the Docker daemon")
              eq_refl eq_refl eq_refl eq_refl)
    as (Hrun & Hnc & Hst & Hid & _).
  - vm_compute. reflexivity.
  - eexists. split; [exact Hrun|]. split; [exact Hnc|]. split; [exact Hst|exact Hid].
Defined.

(** [Start_client_error]: the timeout option of the failed call stays. *)
Lemma Start_client_error_witness :
  exists st',
    Start clientFails 1 false [WithInitTimeout 30] initial =
      Done (Some (ClientError "unable to parse docker host")) st' /\
    initTimeout (stk st') = 30 /\
    hist st' = [EvLock; EvNewClient; EvUnlock].
Proof.
  eexists. split.
  - apply (Start_client_error clientFails 1 false [WithInitTimeout 30] initial);
      reflexivity.
  - split; reflexivity.
Defined.

(** [Start_nil_map_panics] on the healthy daemon. *)
Lemma Start_nil_map_panics_witness :
  exists st',
    Start healthy 1 false [] nilMap =
      Panicked "assignment to entry in nil map" st' /\
    calls isImageList (hist st') = 0%nat.
Proof.
  eexists. split.
  - apply (Start_nil_map_panics healthy 1 false [] nilMap DockerClient);
      reflexivity.
  - reflexivity.
Defined.

(** [Start_success_saw_marker] on the healthy daemon. *)
Lemma Start_success_saw_marker_witness :
  exists h logContent,
    hist started_state =
      h ++ [EvContainerInspect (containerID (stk started_state)); EvUnlock] /\
    last h = Some (EvContainerLogs (containerID (stk started_state))) /\
    ContainerLogs healthy h = inr (inr logContent) /\
    Contains logContent (marker (applyOptions [] (stk initial))) = true.
Proof.
  apply (Start_success_saw_marker healthy 1 false [] initial started_state);
    vm_compute; reflexivity.
Defined.

(** [Start_nowait_no_polls] on the healthy daemon. *)
Lemma Start_nowait_no_polls_witness :
  let st' := result_state (Start healthy 0 false [WithWaitForInit false] initial) in
  exists h1,
    hist st' =
      hist initial ++ h1 ++
      [EvContainerStart (containerID (stk st')); EvNow;
       EvContainerInspect (containerID (stk st')); EvUnlock] /\
    calls isPollEvent h1 = 0%nat.
Proof.
  intros st'.
  apply (Start_nowait_no_polls healthy 0 false [WithWaitForInit false] initial st');
    vm_compute; reflexivity.
Defined.

(** [Start_no_bindings_panics] on a daemon that reports no binding. *)
Lemma Start_no_bindings_panics_witness :
  exists st',
    Start noBindings 1 false [] initial =
      Panicked "index out of range [0] with length 0" st' /\
    started (stk st') = false /\
    containerID (stk st') = "c0ffee"%string.
Proof.
  pose (s1 := set_pm (Some (<[FixedPort := requested]> ∅))
                (set_cli (Some DockerClient) (set_mu true New))).
  pose (h2 := [EvLock; EvNewClient; EvGo; EvImageList LocalStackImage]).
  pose (hc := h2 ++ [EvContainerCreate LocalStackImage
                       (<[FixedPort := requested]> ∅) (getVolumeMounts New)
                       true ""]).
  destruct (Start_no_bindings_panics noBindings 1 false [] initial ∅ DockerClient
              {| stk := s1; hist := h2 |} "c0ffee"%string
              {| stk := set_containerID "c0ffee" s1;
                 hist := hc ++ [EvContainerStart "c0ffee"; EvNow;
                                EvContainerLogs "c0ffee"] |}
              ∅ eq_refl eq_refl eq_refl eq_refl)
    as (Hrun & Hst & Hid & _).
  - vm_compute. reflexivity.
  - vm_compute. reflexivity.
  - vm_compute. reflexivity.
  - vm_compute. reflexivity.
  - vm_compute. reflexivity.
  - left. reflexivity.
  - eexists. split; [exact Hrun|]. split; [exact Hst|exact Hid].
Defined.

(** [timeout_overflow] at the first timeout that overflows. *)
Lemma timeout_overflow_witness :
  timeoutDuration overflowing = 9223372037 * 1000000000 - 2 ^ 64 /\
  timeoutDuration overflowing < 0 /\
  waitLoop healthy 1 {| stk := overflowing; hist := [] |} =
    Done (Some (InitTimeout 9223372037))
      {| stk := overflowing; hist := [EvSince] |}.
Proof.
  apply (timeout_overflow healthy overflowing DockerClient [] 0 eq_refl).
  - cbn. lia.
  - vm_compute. discriminate.
Defined.

(** [isFunctional_contract] on the started controller and a working SDK. *)
Lemma isFunctional_contract_witness :
  exists h', isFunctional sqsUp (stk started_state) [] = (Some true, h').
Proof.
  eexists.
  apply (proj2 (isFunctional_contract sqsUp (stk started_state) [])).
  split; [vm_compute; reflexivity|].
  exists "http://localhost:32768"%string,
         "http://localhost:32768/000000000000/test-queue"%string.
  cbv zeta. split; [vm_compute; reflexivity|].
  split; [reflexivity|]. split; reflexivity.
Defined.

(** [isFunctional_endpoint] on the started controller. *)
Lemma isFunctional_endpoint_witness :
  exists result hx,
    isFunctional sqsUp (stk started_state) [] = (Some result, [] ++ hx) /\
    (started (stk started_state) = false -> hx = [] /\ result = false) /\
    (started (stk started_state) = true ->
     exists hd hd' ports b rest,
       hist started_state = hd ++ hd' /\
       ContainerInspect healthy hd = inr ports /\
       ports !! FixedPort = Some (b :: rest) /\
       Forall (sentTo {| PartitionID := "aws";
                         URL := "http://localhost:" +:+ HostPort b;
                         SigningRegion := "us-east-1";
                         HostnameImmutable := true |}) hx).
Proof.
  apply (isFunctional_endpoint healthy sqsUp started_state [] healthy_ids).
  left. exact started_state_reachable.
Defined.

(** ** The lock *)







